(** * tasks/util/docs.py: extraction of the Rust API description and its
      insertion into the documentation page

    A shallow embedding of [analyze_rust_module], [describe_rust_api] and
    [insert_api_docs], together with the fragments of the Python runtime they
    rely on ([str] methods, the three regular expressions, [pathlib] names,
    text files, [logging]).

    Conventions of the model.
    - Text is ASCII: a [string] is the sequence of characters Python sees
      after decoding, with universal newlines already applied.
    - The platform is POSIX: [os.linesep] is a single line feed and text-mode
      writing performs no newline translation.
    - The interpreter is Python 2 (tasks/build.py imports [itertools.imap]):
      in patterns without the UNICODE flag, [\s] is [ \t\n\r\f\v] and [\w] is
      [[A-Za-z0-9_]]. *)

From Stdlib Require Import String Ascii List Bool Arith Lia.
Import ListNotations.
Set Warnings "-register-all".
Open Scope list_scope.
Open Scope string_scope.

(** ** Python strings *)

Module Py.

Definition LF : ascii := ascii_of_nat 10.

(** [os.linesep] on POSIX. *)
Definition linesep : string := String LF "".

(** [unicode.isspace] restricted to ASCII: TAB..CR, FS..US and SPACE. *)
Definition is_space (c : ascii) : bool :=
  let n := nat_of_ascii c in
  (((9 <=? n) && (n <=? 13)) || ((28 <=? n) && (n <=? 32)))%nat.

(** Class [\s] of [re] without the UNICODE flag. *)
Definition re_space (c : ascii) : bool :=
  let n := nat_of_ascii c in
  (((9 <=? n) && (n <=? 13)) || (n =? 32))%nat.

(** Class [\w] of [re] without the UNICODE flag. *)
Definition is_word (c : ascii) : bool :=
  let n := nat_of_ascii c in
  (((48 <=? n) && (n <=? 57)) || ((65 <=? n) && (n <=? 90))
   || ((97 <=? n) && (n <=? 122)) || (n =? 95))%nat.

(** [c in chars] for a one-character [c]. *)
Fixpoint in_chars (chars : string) (c : ascii) : bool :=
  match chars with
  | "" => false
  | String d chars' => Ascii.eqb c d || in_chars chars' c
  end.

(** Longest prefix whose characters satisfy [p], and the rest. *)
Fixpoint span (p : ascii -> bool) (s : string) : string * string :=
  match s with
  | "" => ("", "")
  | String c s' =>
      if p c then let (a, b) := span p s' in (String c a, b) else ("", s)
  end.

Definition lstrip_by (p : ascii -> bool) (s : string) : string := snd (span p s).

Fixpoint rstrip_by (p : ascii -> bool) (s : string) : string :=
  match s with
  | "" => ""
  | String c s' =>
      match rstrip_by p s' with
      | "" => if p c then "" else String c ""
      | r => String c r
      end
  end.

(** [s.lstrip()], [s.rstrip()], [s.strip()]. *)
Definition lstrip (s : string) : string := lstrip_by is_space s.
Definition rstrip (s : string) : string := rstrip_by is_space s.
Definition strip (s : string) : string := rstrip (lstrip s).

(** [s.lstrip(chars)], [s.rstrip(chars)]. *)
Definition lstrip_chars (chars s : string) : string := lstrip_by (in_chars chars) s.
Definition rstrip_chars (chars s : string) : string := rstrip_by (in_chars chars) s.

(** [s.startswith(pre)]. *)
Definition startswith (pre s : string) : bool := String.prefix pre s.

(** [sub in s]. *)
Fixpoint contains (sub s : string) : bool :=
  String.prefix sub s ||
  match s with
  | "" => false
  | String _ s' => contains sub s'
  end.

(** [sep.join(l)]. *)
Fixpoint join (sep : string) (l : list string) : string :=
  match l with
  | [] => ""
  | [x] => x
  | x :: l' => x ++ sep ++ join sep l'
  end.

(** [s[n:]] on strings. *)
Fixpoint drop (n : nat) (s : string) : string :=
  match n, s with
  | 0, _ => s
  | S n', String _ s' => drop n' s'
  | S _, "" => ""
  end.

(** Lines of a text, each with its terminator, as [f.readlines()] returns
    them. *)
Fixpoint readlines (s : string) : list string :=
  match s with
  | "" => []
  | String c s' =>
      if Ascii.eqb c LF then String c "" :: readlines s'
      else match readlines s' with
           | [] => [String c ""]
           | l :: ls => String c l :: ls
           end
  end.

(** The slice [l[:-1]]. *)
Definition but_last {A} (l : list A) : list A := removelast l.

(** *** The regular expressions of the module *)

(** [re.search(r'\bself\b', s)]: [prev_word] tells whether the character
    before the current position is a word character. *)
Fixpoint search_self_from (prev_word : bool) (s : string) : bool :=
  match s with
  | "" => false
  | String c s' =>
      (negb prev_word && String.prefix "self" s &&
       match drop 4 s with
       | "" => true
       | String d _ => negb (is_word d)
       end)
      || search_self_from (is_word c) s'
  end.

Definition re_search_self (s : string) : bool := search_self_from false s.

(** [s] without the literal [lit] in front, when it starts with it. *)
Definition after (lit s : string) : option string :=
  if String.prefix lit s then Some (drop (String.length lit) s) else None.

(** One or more [\s], then the rest. *)
Definition spaces1 (s : string) : option string :=
  match span re_space s with
  | ("", _) => None
  | (_, r) => Some r
  end.

(** [re.match(r'pub\s+fn\s+(\w+)\(', s)]: group 1 of the match anchored at
    the first character of [s]. Every quantifier is followed by a character
    outside its class, so the greedy run is the only candidate. *)
Definition re_match_pub_fn (s : string) : option string :=
  match after "pub" s with
  | None => None
  | Some r1 =>
  match spaces1 r1 with
  | None => None
  | Some r2 =>
  match after "fn" r2 with
  | None => None
  | Some r3 =>
  match spaces1 r3 with
  | None => None
  | Some r4 =>
  match span is_word r4 with
  | ("", _) => None
  | (name, String "(" _) => Some name
  | _ => None
  end end end end end.

(** One match of [(\w+)\s*:(?!:)] starting at the first character of [s]:
    group 1 and the length of the whole match. *)
Definition match_arg (s : string) : option (string * nat) :=
  match span is_word s with
  | ("", _) => None
  | (name, r) =>
      match span re_space r with
      | (sp, String ":" r') =>
          if String.prefix ":" r' then None
          else Some (name, String.length name + String.length sp + 1)
      | _ => None
      end
  end.

(** [[m.group(1) for m in re.finditer(r'(\w+)\s*:(?!:)', s)]]: leftmost
    matches that do not overlap; [skip] counts the characters still covered
    by the previous match. *)
Fixpoint finditer_args_from (skip : nat) (s : string) : list string :=
  match s with
  | "" => []
  | String _ s' =>
      match skip with
      | S k => finditer_args_from k s'
      | 0 =>
          match match_arg s with
          | Some (name, len) => name :: finditer_args_from (len - 1) s'
          | None => finditer_args_from 0 s'
          end
      end
  end.

Definition re_finditer_args (s : string) : list string := finditer_args_from 0 s.

(** [re.sub(r'^\s*\*', repl, s)]: the pattern is anchored, so at most the
    match at the start is replaced. *)
Definition re_sub_bullet (repl s : string) : string :=
  match span re_space s with
  | (_, String "*" r) => repl ++ r
  | _ => s
  end.

End Py.

(** ** pathlib *)

(** A pure POSIX path in pathlib's normal form: whether it starts at the
    root, and its components. [Path('.')] has no component. Conversions
    [str(path)] and [Path(string)] are inverse of each other on this form and
    are not modelled. *)
Record Path : Type := mkPath { anchored : bool; parts : list string }.

Definition Path_eq_dec (p q : Path) : {p = q} + {p <> q}.
Proof.
  decide equality.
  - apply (list_eq_dec string_dec).
  - apply bool_dec.
Defined.

Definition Path_eqb (p q : Path) : bool := if Path_eq_dec p q then true else false.

(** [s.rfind(c)], [None] for -1. *)
Fixpoint rfind (c : ascii) (s : string) : option nat :=
  match s with
  | "" => None
  | String d s' =>
      match rfind c s' with
      | Some i => Some (S i)
      | None => if Ascii.eqb d c then Some 0 else None
      end
  end.

(** [PurePath.name]: the final component, empty for [Path('.')] and the
    root. *)
Definition path_name (p : Path) : string := last (parts p) "".

(** [PurePath.stem]: the name without its last suffix. *)
Definition stem (p : Path) : string :=
  let name := path_name p in
  match rfind "." name with
  | Some i =>
      if ((0 <? i) && (i <? String.length name - 1))%nat
      then substring 0 i name else name
  | None => name
  end.

(** [PurePath.parent]. *)
Definition parent (p : Path) : Path :=
  mkPath (anchored p) (removelast (parts p)).

(** [dir / name]. *)
Definition child (dir : Path) (name : string) : Path :=
  mkPath (anchored dir) (parts dir ++ [name])%list.

(** Truth value of a path object: [PurePath] defines neither [__bool__] nor
    [__len__]. *)
Definition Path_truth (p : Path) : bool := true.

(** [fnmatch(name, '*.rs')] on a case-sensitive file system. *)
Fixpoint endswith_rs (name : string) : bool :=
  String.eqb name ".rs" ||
  match name with
  | "" => false
  | String _ name' => endswith_rs name'
  end.

(** ** Files, logging and the world *)

Inductive node : Type :=
| File (content : string)
| Dir.

(** The file system as the program observes it: what is at a path, the
    entries of a directory in listing order, and the result of
    [glob2.glob(str(path))] (a library outside the repository). *)
Record FS : Type := mkFS {
  node_at : Path -> option node;
  listdir : Path -> list string;
  glob : Path -> list Path
}.

Inductive level : Type := DEBUG | INFO | WARNING.

(** The four log records of the module, with their arguments. *)
Inductive log_record : Type :=
| Analyzing (path : Path)
| Spurious (def_start_line : string)
| Found (name : string) (arguments : list string) (returns : string)
| ModuleHad (name : string) (n_functions n_submodules : nat).

Inductive event : Type :=
| Log (lv : level) (r : log_record)
| Opened (p : Path) (mode : string)
| ReadAll (p : Path)
| Truncated (p : Path)
| Written (p : Path) (text : string)
| Closed (p : Path).

Record world : Type := mkWorld { fs : FS; trace : list event }.

Inductive value_error : Type :=
| MarkersNotFound (target_path : Path) (begin_idx end_idx : option nat)
| EmptyRegion.

Inductive exn : Type :=
| IOError (p : Path)
| ValueError (e : value_error).

(** Outcome of a run: a value, an exception, or no outcome within the
    fuel. *)
Inductive result (A : Type) : Type :=
| Ret (a : A)
| Raise (e : exn)
| OutOfFuel.
Arguments Ret {A} a.
Arguments Raise {A} e.
Arguments OutOfFuel {A}.

Definition M (A : Type) : Type := world -> result A * world.

Definition ret {A} (a : A) : M A := fun w => (Ret a, w).

Definition bind {A B} (m : M A) (k : A -> M B) : M B :=
  fun w =>
    match m w with
    | (Ret a, w') => k a w'
    | (Raise e, w') => (Raise e, w')
    | (OutOfFuel, w') => (OutOfFuel, w')
    end.

Definition raise {A} (e : exn) : M A := fun w => (Raise e, w).

Definition out_of_fuel {A} : M A := fun w => (OutOfFuel, w).

Declare Scope monad_scope.
Delimit Scope monad_scope with monad.
Notation "x <- m ;; k" := (bind m (fun x => k))
  (at level 61, m at next level, right associativity) : monad_scope.
Notation "m ;; k" := (bind m (fun _ => k))
  (at level 61, right associativity) : monad_scope.
Open Scope monad_scope.

Definition emit (e : event) : M unit :=
  fun w => (Ret tt, mkWorld (fs w) (trace w ++ [e])%list).

Definition logging (lv : level) (r : log_record) : M unit := emit (Log lv r).

Definition set_content (p : Path) (text : string) (f : FS) : FS :=
  mkFS (fun q => if Path_eqb q p then Some (File text) else node_at f q)
       (listdir f) (glob f).

(** [with path.open(mode) as f: body]: opening fails unless a regular file
    is there; the file is closed however the body ends. *)
Definition with_open {A} (p : Path) (mode : string) (body : M A) : M A :=
  fun w =>
    match node_at (fs w) p with
    | Some (File _) =>
        match (emit (Opened p mode) ;; body) w with
        | (r, w') => (r, mkWorld (fs w') (trace w' ++ [Closed p])%list)
        end
    | _ => (Raise (IOError p), w)
    end.

(** [f.readlines()] on a file just opened. *)
Definition f_readlines (p : Path) : M (list string) :=
  fun w =>
    match node_at (fs w) p with
    | Some (File text) =>
        (Ret (Py.readlines text), mkWorld (fs w) (trace w ++ [ReadAll p])%list)
    | _ => (Raise (IOError p), w)
    end.

(** [f.seek(0); f.truncate()]. *)
Definition f_seek0_truncate (p : Path) : M unit :=
  fun w => (Ret tt, mkWorld (set_content p "" (fs w)) (trace w ++ [Truncated p])%list).

(** [f.write(text)] at offset 0 of the emptied file. *)
Definition f_write (p : Path) (text : string) : M unit :=
  fun w => (Ret tt, mkWorld (set_content p text (fs w)) (trace w ++ [Written p text])%list).

(** [dir.glob('*.rs')]: the entries of [dir] whose name matches, in listing
    order. *)
Definition path_glob_rs (dir : Path) : M (list Path) :=
  fun w => (Ret (map (child dir) (filter endswith_rs (listdir (fs w) dir))), w).

(** [glob(str(source))] of glob2. *)
Definition glob2_glob (source : Path) : M (list Path) :=
  fun w => (Ret (glob (fs w) source), w).

Section ForEach.
Context {A S : Type} (body : A -> S -> M S).

(** [for x in xs: s = body(x, s)]. *)
Fixpoint for_each (xs : list A) (s : S) : M S :=
  match xs with
  | [] => ret s
  | x :: xs' => s' <- body x s ;; for_each xs' s'
  end.
End ForEach.

(** ** Data model *)

(** [OrderedDict] of names to descriptions: keys in order of first
    insertion. *)
Definition OrderedDict : Type := list (string * option string).

Fixpoint od_set (k : string) (v : option string) (d : OrderedDict) : OrderedDict :=
  match d with
  | [] => [(k, v)]
  | (k', v') :: d' =>
      if String.eqb k k' then (k, v) :: d' else (k', v') :: od_set k v d'
  end.

(** [OrderedDict(pairs)]. *)
Definition od_of_pairs (pairs : list (string * option string)) : OrderedDict :=
  fold_left (fun d kv => od_set (fst kv) (snd kv) d) pairs [].

Definition od_keys (d : OrderedDict) : list string := map fst d.

(** [zip(names, repeat(None))]. *)
Definition zip_repeat_None (names : list string) : list (string * option string) :=
  map (fun a => (a, None)) names.

(** The namedtuple [Function]. *)
Record Function_ : Type := mkFunction {
  f_name : string;
  f_description : string;
  f_arguments : OrderedDict;
  f_returns : option string
}.

(** The namedtuple [Module]. *)
Inductive Module_ : Type :=
  mkModule (path : Path) (name : string) (description : string)
           (submodules : list Module_) (functions : list Function_).

Definition m_path (m : Module_) : Path :=
  match m with mkModule p _ _ _ _ => p end.
Definition m_name (m : Module_) : string :=
  match m with mkModule _ n _ _ _ => n end.
Definition m_description (m : Module_) : string :=
  match m with mkModule _ _ d _ _ => d end.
Definition m_submodules (m : Module_) : list Module_ :=
  match m with mkModule _ _ _ s _ => s end.
Definition m_functions (m : Module_) : list Function_ :=
  match m with mkModule _ _ _ _ f => f end.

(** Truth value of a [Module]: a tuple of five fields is never empty. *)
Definition Module_truth (m : Module_) : bool := true.

(** The values compared by [==] in [analyze_rust_module]: a list of names
    and a string. Values of different types are never equal. *)
Inductive pyval : Type :=
| PyStr (s : string)
| PyList (l : list string).

Definition py_eq (a b : pyval) : bool :=
  match a, b with
  | PyStr s, PyStr t => String.eqb s t
  | PyList l, PyList k => if list_eq_dec string_dec l k then true else false
  | _, _ => false
  end.

(** ** analyze_rust_module *)

Definition enumerate {A} (l : list A) : list (nat * A) :=
  combine (seq 0 (length l)) l.

Fixpoint takewhile {A} (p : A -> bool) (l : list A) : list A :=
  match l with
  | [] => []
  | x :: l' => if p x then x :: takewhile p l' else []
  end.

(** [range(start, stop, -1)] for [0 <= stop]; a negative [start] (the index
    before line 0) is represented by 0, the range being empty either way. *)
Definition range_down (start stop : nat) : list nat :=
  rev (seq (S stop) (start - stop)).

(** The module-level docstring. *)
Definition module_docstring (lines : list string) : string :=
  Py.join Py.linesep
    (map (fun line => Py.strip (Py.lstrip_chars "/!" line))
         (takewhile (fun l => Py.startswith "//!" l) lines)).

Definition pub_fn_line_indices (lines : list string) : list nat :=
  map fst (filter (fun il => Py.startswith "pub fn" (Py.lstrip (snd il)))
                  (enumerate lines)).

(** The loop [while '{' not in lines[j]: func_header += lines[j]]: no
    variable of the condition changes in the body. *)
Fixpoint header_loop (fuel : nat) (lines : list string) (j : nat)
         (func_header : string) : M string :=
  match fuel with
  | 0 => out_of_fuel
  | S fuel' =>
      if negb (Py.contains "{" (nth j lines ""))
      then header_loop fuel' lines j (func_header ++ nth j lines "")
      else ret func_header
  end.

(** The loop over [range(idx - 1, 0, -1)] that collects [docstring_lines],
    leaving at the first line that is not a doc comment. *)
Fixpoint docstring_loop (lines : list string) (js : list nat) : list string :=
  match js with
  | [] => []
  | j :: js' =>
      let line := Py.lstrip (nth j lines "") in
      if negb (Py.startswith "///" line) then []
      else
        let line :=
          match Py.strip (Py.lstrip_chars "/" line) with
          | "" => Py.linesep
          | s => s
          end in
        let line := Py.re_sub_bullet (Py.linesep ++ "*") line in
        line :: docstring_loop lines js'
  end.

Definition extract_docstring (lines : list string) (idx : nat) : string :=
  Py.join "" (rev (docstring_loop lines (range_down (idx - 1) 0))).

(** The trimming of the argument names, as written. *)
Definition fix_argnames (argnames : list string) : list string :=
  if py_eq (PyList (Py.but_last argnames)) (PyStr "context")
  then Py.but_last argnames
  else argnames.

(** Body of the loop over [pub_fn_line_indices]; [functions] is the list
    built so far. *)
Definition scan_function (fuel : nat) (lines : list string) (idx : nat)
           (functions : list Function_) : M (list Function_) :=
  let def_start_line := nth idx lines "" in
  if Py.re_search_self def_start_line then ret functions
  else
    match Py.re_match_pub_fn def_start_line with
    | None => logging WARNING (Spurious def_start_line) ;; ret functions
    | Some fn_name =>
        func_header <- header_loop fuel lines idx def_start_line ;;
        let argnames := Py.re_finditer_args func_header in
        let docstring := extract_docstring lines idx in
        let fn_name := Py.rstrip_chars "_" fn_name in
        let argnames := fix_argnames argnames in
        let func := mkFunction fn_name docstring
                               (od_of_pairs (zip_repeat_None argnames)) None in
        logging DEBUG (Found (f_name func) (od_keys (f_arguments func)) "?") ;;
        ret (functions ++ [func])%list
    end.

(** An argument of [describe_rust_api]: one path, or a list of paths. *)
Inductive src_arg : Type :=
| SrcPath (p : Path)
| SrcList (l : list Path).

(** [describe_rust_api], run to exhaustion, over a given analysis of one
    file. *)
Definition describe_with (analyze : Path -> M Module_) (src : list src_arg)
  : M (list Module_) :=
  let sources :=
    concat (map (fun s => match s with SrcPath p => [p] | SrcList l => l end) src) in
  match sources with
  | [] => ret []
  | _ =>
      for_each (fun source yielded =>
          filenames <- glob2_glob source ;;
          for_each (fun filename yielded =>
              module <- analyze filename ;;
              if Module_truth module then ret (yielded ++ [module])%list
              else ret yielded)
            filenames yielded)
        sources []
  end.

Fixpoint analyze_rust_module (fuel : nat) (path : Path) : M Module_ :=
  match fuel with
  | 0 => out_of_fuel
  | S fuel' =>
      logging INFO (Analyzing path) ;;
      let mod_name := stem path in
      named <-
        (if String.eqb mod_name "mod" then
           if Path_truth (parent path) then
             let mod_name := stem (parent path) in
             siblings <- path_glob_rs (parent path) ;;
             submodules <-
               for_each (fun submodule_path submodules =>
                   if negb (String.eqb (stem submodule_path) "mod") then
                     more <- describe_with (analyze_rust_module fuel')
                                           [SrcPath submodule_path] ;;
                     ret (submodules ++ more)%list
                   else ret submodules)
                 siblings [] ;;
             ret (mod_name, submodules)
           else ret ("", [])
         else ret (mod_name, [])) ;;
      let mod_name := fst named in
      let submodules := snd named in
      lines <- with_open path "r" (f_readlines path) ;;
      let mod_docstring := module_docstring lines in
      functions <-
        for_each (scan_function (S fuel') lines) (pub_fn_line_indices lines) [] ;;
      let module := mkModule path mod_name mod_docstring submodules functions in
      logging INFO (ModuleHad (m_name module)
                              (length (m_functions module))
                              (length (m_functions module))) ;;
      ret module
  end.

Definition describe_rust_api (fuel : nat) (src : list src_arg) : M (list Module_) :=
  describe_with (analyze_rust_module fuel) src.

(** ** insert_api_docs *)

(** The [modules] argument: a list, or the generator returned by
    [describe_rust_api] with the modules it yields. *)
Inductive py_modules : Type :=
| ModList (l : list Module_)
| ModGenerator (l : list Module_).

(** Truth value: an empty list is false, a generator object is true. *)
Definition modules_truth (modules : py_modules) : bool :=
  match modules with
  | ModList [] => false
  | _ => true
  end.

Definition modules_items (modules : py_modules) : list Module_ :=
  match modules with
  | ModList l => l
  | ModGenerator l => l
  end.

Definition default_between : string * string :=
  ("BEGIN AUTOGENERATED API DOCUMENTATION", "END AUTOGENERATED API DOCUMENTATION").

(** The loop that determines [begin_idx] and [end_idx]. *)
Definition find_markers (begin_marker end_marker : string)
           (target_lines : list string) : option nat * option nat :=
  fold_left
    (fun acc il =>
       let begin_idx := if Py.contains begin_marker (snd il)
                        then Some (fst il) else fst acc in
       let end_idx := if Py.contains end_marker (snd il)
                      then Some (fst il) else snd acc in
       (begin_idx, end_idx))
    (enumerate target_lines) (None, None).

(** The final content of the file, with docs inserted between markers. *)
Definition target_content_of (target_lines : list string) (docs : string)
           (begin_idx end_idx : nat) : string :=
  Py.join Py.linesep
    [ Py.strip (Py.join Py.linesep (firstn (begin_idx + 1) target_lines));
      docs;
      Py.strip (Py.join Py.linesep (skipn end_idx target_lines)) ].

Section Insert.
(** [Module.render], which delegates to the jinja templates. *)
Variable render : Module_ -> string.

Definition insert_api_docs (modules : py_modules) (into : Path)
           (between : string * string) : M unit :=
  if negb (modules_truth modules) then ret tt
  else
    let docs := Py.join Py.linesep (map render (modules_items modules)) in
    let target_path := into in
    with_open target_path "r+t"
      (raw_lines <- f_readlines target_path ;;
       let target_lines := map Py.strip raw_lines in
       let begin_marker := fst between in
       let end_marker := snd between in
       match find_markers begin_marker end_marker target_lines with
       | (Some begin_idx, Some end_idx) =>
           if Nat.eqb begin_idx end_idx then raise (ValueError EmptyRegion)
           else
             let target_content :=
               target_content_of target_lines docs begin_idx end_idx in
             f_seek0_truncate target_path ;;
             f_write target_path target_content
       | (begin_idx, end_idx) =>
           raise (ValueError (MarkersNotFound target_path begin_idx end_idx))
       end).
End Insert.

(** ** Concrete file systems for the examples *)

(** A relative path from its components. *)
Definition rel (parts : list string) : Path := mkPath false parts.

(** A text from its lines, each terminated by a line feed. *)
Definition text_of (lines : list string) : string :=
  String.concat "" (map (fun l => l ++ Py.linesep) lines).

Fixpoint lookup_file (p : Path) (files : list (Path * string)) : option string :=
  match files with
  | [] => None
  | (q, text) :: files' => if Path_eqb p q then Some text else lookup_file p files'
  end.

(** The file system holding exactly [files], listed in that order, on which
    globbing the path of an existing file yields that path. *)
Definition fs_of_files (files : list (Path * string)) : FS :=
  mkFS (fun p => option_map File (lookup_file p files))
       (fun dir => map (fun f => path_name (fst f))
                       (filter (fun f => Path_eqb (parent (fst f)) dir) files))
       (fun p => match lookup_file p files with Some _ => [p] | None => [] end).

Definition world_of (files : list (Path * string)) : world :=
  mkWorld (fs_of_files files) [].

Definition api_md : Path := rel ["docs"; "api.md"].

(** A stand-in for the jinja templates: a heading with the module name. *)
Definition render_heading (m : Module_) : string := "## " ++ m_name m.

(** The page used in the examples: one indented line, the two marker lines
    around an old body, and a last line. *)
Definition sample_page : string :=
  text_of [ "  Indented introduction";
            "<!-- BEGIN AUTOGENERATED API DOCUMENTATION -->";
            "old body";
            "<!-- END AUTOGENERATED API DOCUMENTATION -->";
            "Closing words" ].

Definition sample_module : Module_ := mkModule (rel ["base.rs"]) "base" "" [] [].

(** A page that holds neither marker. *)
Definition plain_page : string := text_of [ "No markers on this page" ].

(** A directory [api] with its aggregator file and two other modules. *)
Definition api_mod_rs : Path := rel ["api"; "mod.rs"].
Definition api_files : list (Path * string) :=
  [ (api_mod_rs, text_of ["//! Expression API."]);
    (rel ["api"; "strings.rs"],
     text_of [ "use eval::Value;";
               "/// Joins strings.";
               "/// * sep: separator";
               "pub fn join(sep: Value, list: Value) {" ]);
    (rel ["api"; "math.rs"], text_of ["pub fn abs(x: Value) -> eval::Result {"]) ].

(** What the analysis of the two other modules of [api] returns. *)
Definition api_submodules : list Module_ :=
  [ mkModule (rel ["api"; "strings.rs"]) "strings" "" []
      [ mkFunction "join" ("Joins strings." ++ Py.linesep ++ "* sep: separator")
                   [("sep", None); ("list", None)] None ];
    mkModule (rel ["api"; "math.rs"]) "math" "" []
      [ mkFunction "abs" "" [("x", None)] None ] ].

(** The same files in a directory named [api.v2]. *)
Definition api_v2_mod_rs : Path := rel ["api.v2"; "mod.rs"].
Definition api_v2_files : list (Path * string) :=
  map (fun f => (mkPath false ("api.v2" :: tl (parts (fst f))), snd f)) api_files.


(** A page on which both markers are on one line. *)
Definition one_line_page : string :=
  text_of [ "<!-- BEGIN AUTOGENERATED API DOCUMENTATION END AUTOGENERATED API DOCUMENTATION -->" ].

(** A module file with a method, a plain declaration and a generic one. *)
Definition values_lines : list string :=
  [ "//! Values.";
    "";
    "pub fn len(&self) -> usize {";
    "/// Parses the input.";
    "pub fn parse(input: &str, mode: Mode::Strict) {";
    "pub fn map<F>(f: F) {" ].

(** A module file whose second declaration opens its body on the next line. *)
Definition wrapped_lines : list string :=
  [ "pub fn one(a: i32) {"; "pub fn two(a: i32,"; "           b: i32) {" ].

(** A page with comment markers on lines of their own and inside a line. *)
Definition commented_page : string :=
  text_of [ "# API";
            "  <!-- BEGIN AUTOGENERATED API DOCUMENTATION -->  ";
            "See <!-- inline --> the list.";
            "<!-- END AUTOGENERATED API DOCUMENTATION -->" ]
  ++ "last line".

(** The aggregator of [api] as a file of its own, named after the directory
    [api.v2]. *)
Definition api_v2_rs : Path := rel ["api.v2.rs"].

Definition lib_rs : Path := rel ["lib.rs"].

(** The world whose only file is [lib.rs] with the given lines. *)
Definition lib_world (lines : list string) : world :=
  world_of [(lib_rs, text_of lines)].

(** ** Specification vocabulary *)

(** [sub] occurs in [s]. *)
Definition occurs_in (sub s : string) : Prop :=
  exists pre post, s = pre ++ sub ++ post.

(** [i] is the last index of [l] whose element satisfies [p]. *)
Definition is_last (p : string -> bool) (l : list string) (i : nat) : Prop :=
  i < length l /\ p (nth i l "") = true /\
  forall j, i < j -> j < length l -> p (nth j l "") = false.

(** The last index, counted from [k], of an element of [l] satisfying [p];
    [acc] when there is none. *)
Fixpoint last_index_from (p : string -> bool) (k : nat) (l : list string)
         (acc : option nat) : option nat :=
  match l with
  | [] => acc
  | x :: l' => last_index_from p (S k) l' (if p x then Some k else acc)
  end.


(** A computation that leaves the file system as it is and whose outcome
    depends on the file system only. *)
Definition reads_only {A} (m : M A) : Prop :=
  forall w,
    fs (snd (m w)) = fs w /\
    forall w', fs w' = fs w -> fst (m w') = fst (m w).

(** Every declaration line that the scanner looks at carries the opening
    brace. *)
Definition headers_close (lines : list string) : Prop :=
  Forall (fun idx => Py.contains "{" (nth idx lines "") = true)
         (pub_fn_line_indices lines).

(** The record built for a declaration line that passes the filters. *)
Definition function_of (lines : list string) (idx : nat) (raw_name : string)
  : Function_ :=
  mkFunction (Py.rstrip_chars "_" raw_name)
             (extract_docstring lines idx)
             (od_of_pairs (zip_repeat_None (Py.re_finditer_args (nth idx lines ""))))
             None.

(** [m'] returns whatever [m] returns. *)
Definition extends {A} (m m' : M A) : Prop :=
  forall w a w1, m w = (Ret a, w1) -> m' w = (Ret a, w1).

(** The two parts of [analyze_rust_module] after its first log record: the
    name and the submodules, then the reading and scanning of the file. *)
Definition resolve_module (analyze : Path -> M Module_) (path : Path)
  : M (string * list Module_) :=
  let mod_name := stem path in
  if String.eqb mod_name "mod" then
    if Path_truth (parent path) then
      let mod_name := stem (parent path) in
      siblings <- path_glob_rs (parent path) ;;
      submodules <-
        for_each (fun submodule_path submodules =>
            if negb (String.eqb (stem submodule_path) "mod") then
              more <- describe_with analyze [SrcPath submodule_path] ;;
              ret (submodules ++ more)%list
            else ret submodules)
          siblings [] ;;
      ret (mod_name, submodules)
    else ret ("", [])
  else ret (mod_name, []).

Definition scan_module (fuel : nat) (path : Path) (named : string * list Module_)
  : M Module_ :=
  let mod_name := fst named in
  let submodules := snd named in
  lines <- with_open path "r" (f_readlines path) ;;
  let mod_docstring := module_docstring lines in
  functions <-
    for_each (scan_function fuel lines) (pub_fn_line_indices lines) [] ;;
  let module := mkModule path mod_name mod_docstring submodules functions in
  logging INFO (ModuleHad (m_name module)
                          (length (m_functions module))
                          (length (m_functions module))) ;;
  ret module.

(** The siblings of an aggregator file that are analysed as submodules. *)
Definition submodule_paths (f : FS) (path : Path) : list Path :=
  filter (fun p => negb (String.eqb (stem p) "mod"))
         (map (child (parent path)) (filter endswith_rs (listdir f (parent path)))).

(** Every character of [s] satisfies [p]. *)
Fixpoint all_chars (p : ascii -> bool) (s : string) : bool :=
  match s with
  | "" => true
  | String c s' => p c && all_chars p s'
  end.

(** Decidable form of [headers_close]. *)
Definition headers_closeb (lines : list string) : bool :=
  forallb (fun idx => Py.contains "{" (nth idx lines "")) (pub_fn_line_indices lines).

(** ** scrub_html_comment_markers *)

(** [s.endswith(suffix)]. *)
Fixpoint endswith (suffix s : string) : bool :=
  String.eqb suffix s ||
  match s with
  | "" => false
  | String _ s' => endswith suffix s'
  end.

Definition is_marker_line (l : string) : bool :=
  Py.startswith "<!--" (Py.lstrip l) && endswith "-->" (Py.rstrip l).

(** [f.writelines(lines)]: the lines are written one after the other. *)
Definition f_writelines (p : Path) (lines : list string) : M unit :=
  f_write p (String.concat "" lines).

Definition scrub_html_comment_markers (filepath : Path) : M unit :=
  let path := filepath in
  with_open path "r+t"
    (all_lines <- f_readlines path ;;
     let lines := filter (fun line => negb (is_marker_line line)) all_lines in
     f_seek0_truncate path ;;
     f_writelines path lines).

(** ** tasks/build.py *)

(** The patterns read from [.docsignore] in [docs]: the lines that are not
    blank and are not comments, without their trailing white space. *)
Definition docsignore_patterns (lines : list string) : list string :=
  map Py.rstrip
      (filter (fun line =>
                 negb (String.eqb (Py.strip line) "")
                 && negb (Py.startswith "#" (Py.lstrip line)))
              lines).

(** [is_root_mod_rs] of [docs]. *)
Definition is_root_mod_rs (p : Path) : bool :=
  String.eqb (stem p) "mod" && String.eqb (stem (parent p)) "api".

(** The part of [docs] that describes the API modules and renders them into
    [./docs/api.md]; [found] is what [rglob('**/*.rs')] returns. The
    generator returned by [describe_rust_api] is a true value whatever it
    yields, and it is run when [insert_api_docs] joins the renders, before
    the target file is opened. *)
Definition docs_api (render : Module_ -> string) (fuel : nat) (found : list Path)
  : M unit :=
  let module_paths := filter (fun m => negb (is_root_mod_rs m)) found in
  yielded <- describe_rust_api fuel (map SrcPath module_paths) ;;
  insert_api_docs render (ModGenerator yielded) api_md default_between.

(** ** Closed forms *)

(** The Functions that one declaration line contributes. *)
Definition scanned (lines : list string) (idx : nat) : list Function_ :=
  let line := nth idx lines "" in
  if Py.re_search_self line then []
  else match Py.re_match_pub_fn line with
       | Some raw_name => [function_of lines idx raw_name]
       | None => []
       end.

Definition scanned_functions (lines : list string) : list Function_ :=
  flat_map (scanned lines) (pub_fn_line_indices lines).

(** A declaration line on which the header loop never ends: not a method,
    matching the name pattern, without the opening brace. *)
Definition stuck (lines : list string) (idx : nat) : bool :=
  let line := nth idx lines "" in
  negb (Py.re_search_self line)
  && match Py.re_match_pub_fn line with Some _ => true | None => false end
  && negb (Py.contains "{" line).

(** An event that changes a file. *)
Definition is_write (e : event) : bool :=
  match e with
  | Truncated _ | Written _ _ => true
  | _ => false
  end.

(** A computation that changes no file and records no change of a file,
    however it ends. *)
Definition writes_nothing {A} (m : M A) : Prop :=
  forall w,
    fs (snd (m w)) = fs w /\
    exists evs, trace (snd (m w)) = (trace w ++ evs)%list /\
                existsb is_write evs = false.

(** A computation whose outcome is the same in every world. *)
Definition world_independent {A} (m : M A) : Prop :=
  forall w w', fst (m w) = fst (m w').

(** A line as [readlines] returns it: not empty, with no line feed before
    its last character. *)
Definition no_LF (s : string) : bool :=
  all_chars (fun c => negb (Ascii.eqb c Py.LF)) s.

Fixpoint lines_ok (l : list string) : Prop :=
  match l with
  | [] => True
  | x :: rest =>
      (exists body, no_LF body = true /\
         (x = body ++ Py.linesep \/ (x = body /\ body <> "" /\ rest = [])))
      /\ lines_ok rest
  end.

(** A string with a character that is not white space. *)
Definition has_ink (s : string) : bool := negb (all_chars Py.is_space s).

(** A non-empty run of word characters. *)
Definition identifier (s : string) : Prop :=
  s <> "" /\ all_chars Py.is_word s = true.

(** What holds of every Function the scanner builds. *)
Definition well_formed_function (f : Function_) : Prop :=
  (forall s, f_name f <> s ++ "_") /\
  all_chars Py.is_word (f_name f) = true /\
  f_returns f = None /\
  NoDup (od_keys (f_arguments f)) /\
  Forall (fun kv => snd kv = None) (f_arguments f) /\
  Forall identifier (od_keys (f_arguments f)).

(** The text that one doc-comment line contributes to a description. *)
Definition doc_text (raw_line : string) : string :=
  let line := Py.lstrip raw_line in
  let line :=
    match Py.strip (Py.lstrip_chars "/" line) with
    | "" => Py.linesep
    | s => s
    end in
  Py.re_sub_bullet (Py.linesep ++ "*") line.

(** A doc-comment line, as the backward scan tests it. *)
Definition is_doc_line (raw_line : string) : bool :=
  Py.startswith "///" (Py.lstrip raw_line).

(** A line as [insert_api_docs] keeps it: stripped, and without a line
    feed. *)
Definition trim_line (x : string) : Prop := Py.strip x = x /\ no_LF x = true.

(** ** Text mode *)

(** Carriage return. The files are opened in text mode, where reading turns
    each CR LF and each lone CR into a line feed and writing stores a line
    feed as it is (POSIX). *)
Definition CR : ascii := ascii_of_nat 13.

(** A text that text mode reads as it is stored: it holds no carriage
    return. *)
Definition no_CR (s : string) : bool :=
  all_chars (fun c => negb (Ascii.eqb c CR)) s.

(** ** Lemmas on strings *)

Lemma append_nil_r (s : string) : s ++ "" = s.
Proof. induction s; simpl; congruence. Qed.

Lemma append_assoc (a b c : string) : (a ++ b) ++ c = a ++ b ++ c.
Proof. induction a; simpl; congruence. Qed.

Lemma occurs_in_refl (s : string) : occurs_in s s.
Proof. exists "", "". simpl. now rewrite append_nil_r. Qed.

Lemma occurs_in_trans (a b c : string) :
  occurs_in a b -> occurs_in b c -> occurs_in a c.
Proof.
  intros (p1 & q1 & ->) (p2 & q2 & ->).
  exists (p2 ++ p1), (q1 ++ q2).
  now rewrite !append_assoc.
Qed.

Lemma occurs_in_app_l (a s t : string) : occurs_in a s -> occurs_in a (s ++ t).
Proof.
  intros (p & q & ->). exists p, (q ++ t). now rewrite !append_assoc.
Qed.

Lemma occurs_in_app_r (a s t : string) : occurs_in a t -> occurs_in a (s ++ t).
Proof.
  intros (p & q & ->). exists (s ++ p), q. now rewrite !append_assoc.
Qed.

Lemma prefix_app (a s : string) :
  String.prefix a s = true <-> exists t, s = a ++ t.
Proof.
  revert s; induction a as [|c a IH]; intros s.
  - destruct s; simpl; split; eauto.
  - destruct s as [|d s]; simpl.
    + split; [discriminate | intros (t & H); discriminate].
    + destruct (ascii_dec c d) as [->|Hne].
      * rewrite IH. split; intros (t & H); exists t; congruence.
      * split; [discriminate | intros (t & H); congruence].
Qed.

Lemma contains_occurs (sub s : string) :
  Py.contains sub s = true <-> occurs_in sub s.
Proof.
  induction s as [|c s IH]; cbn [Py.contains].
  - rewrite orb_false_r, prefix_app. split.
    + intros (t & ->). exists "", t. reflexivity.
    + intros (p & q & H). destruct p; simpl in H; [now exists q | discriminate].
  - rewrite orb_true_iff, prefix_app, IH. split.
    + intros [(t & ->) | (p & q & ->)].
      * exists "", t. reflexivity.
      * exists (String c p), q. reflexivity.
    + intros (p & q & H). destruct p as [|d p]; simpl in H.
      * left. now exists q.
      * right. exists p, q. congruence.
Qed.

Lemma contains_false_of_absent (sub s t : string) :
  occurs_in s t -> Py.contains sub t = false -> Py.contains sub s = false.
Proof.
  intros Hst Ht. destruct (Py.contains sub s) eqn:E; [|reflexivity].
  apply contains_occurs in E.
  assert (Py.contains sub t = true)
    by (apply contains_occurs; eapply occurs_in_trans; eassumption).
  congruence.
Qed.

Lemma span_app (p : ascii -> bool) (s : string) :
  s = fst (Py.span p s) ++ snd (Py.span p s).
Proof.
  induction s as [|c s IH]; simpl; [reflexivity|].
  destruct (p c); [|reflexivity].
  destruct (Py.span p s) as [a b]; simpl in *. congruence.
Qed.

Lemma lstrip_by_occurs (p : ascii -> bool) (s : string) :
  occurs_in (Py.lstrip_by p s) s.
Proof.
  exists (fst (Py.span p s)), "". rewrite append_nil_r. apply span_app.
Qed.

Lemma rstrip_by_prefix (p : ascii -> bool) (s : string) :
  exists t, s = Py.rstrip_by p s ++ t.
Proof.
  induction s as [|c s (t & IH)]; simpl; [now exists ""|].
  destruct (Py.rstrip_by p s) as [|d r] eqn:E.
  - destruct (p c).
    + now exists (String c s).
    + exists s. reflexivity.
  - exists t. simpl in *. congruence.
Qed.

Lemma rstrip_by_occurs (p : ascii -> bool) (s : string) :
  occurs_in (Py.rstrip_by p s) s.
Proof.
  destruct (rstrip_by_prefix p s) as (t & H). exists "", t. exact H.
Qed.

Lemma strip_occurs (s : string) : occurs_in (Py.strip s) s.
Proof.
  unfold Py.strip, Py.rstrip, Py.lstrip.
  eapply occurs_in_trans; [apply rstrip_by_occurs | apply lstrip_by_occurs].
Qed.

Lemma readlines_head_prefix (s l0 : string) (ls : list string) :
  Py.readlines s = l0 :: ls -> exists t, s = l0 ++ t.
Proof.
  revert l0 ls; induction s as [|c s IH]; simpl; intros l0 ls; [discriminate|].
  destruct (Ascii.eqb c Py.LF).
  - intros [= <- _]. now exists s.
  - destruct (Py.readlines s) as [|l1 ls1].
    + intros [= <- _]. now exists s.
    + intros [= <- _]. destruct (IH l1 ls1 eq_refl) as (t & ->). now exists t.
Qed.

Lemma readlines_occurs (s l : string) :
  In l (Py.readlines s) -> occurs_in l s.
Proof.
  revert l; induction s as [|c s IH]; simpl; intros l; [tauto|].
  destruct (Ascii.eqb c Py.LF).
  - intros [<- | H].
    + exists "", s. reflexivity.
    + apply (occurs_in_app_r _ (String c "")). now apply IH.
  - destruct (Py.readlines s) as [|l0 ls] eqn:E.
    + intros [<- | []]. exists "", s. reflexivity.
    + intros [<- | H].
      * destruct (readlines_head_prefix _ _ _ E) as (t & ->).
        exists "", t. reflexivity.
      * apply (occurs_in_app_r _ (String c "")). apply IH. now right.
Qed.

(** ** Lemmas on the marker search *)

Lemma Path_eqb_refl (p : Path) : Path_eqb p p = true.
Proof. unfold Path_eqb. destruct (Path_eq_dec p p); congruence. Qed.

Lemma Path_eqb_neq (p q : Path) : p <> q -> Path_eqb p q = false.
Proof. unfold Path_eqb. destruct (Path_eq_dec p q); congruence. Qed.

Lemma find_markers_last_index (bm em : string) (l : list string) :
  find_markers bm em l =
  (last_index_from (Py.contains bm) 0 l None,
   last_index_from (Py.contains em) 0 l None).
Proof.
  unfold find_markers, enumerate.
  enough (H : forall k b0 e0,
             fold_left
               (fun acc il =>
                  (if Py.contains bm (snd il) then Some (fst il) else fst acc,
                   if Py.contains em (snd il) then Some (fst il) else snd acc))
               (combine (seq k (length l)) l) (b0, e0) =
             (last_index_from (Py.contains bm) k l b0,
              last_index_from (Py.contains em) k l e0)) by apply H.
  induction l as [|x l IH]; intros k b0 e0; simpl; [reflexivity|].
  apply IH.
Qed.

Lemma last_index_from_none (p : string -> bool) (l : list string) :
  (forall x, In x l -> p x = false) ->
  forall k acc, last_index_from p k l acc = acc.
Proof.
  induction l as [|x l IH]; intros H k acc; simpl; [reflexivity|].
  rewrite (H x (or_introl eq_refl)). apply IH. intros y Hy. apply H. now right.
Qed.

Lemma last_index_from_is_last (p : string -> bool) (l : list string) (i : nat) :
  is_last p l i ->
  forall k acc, last_index_from p k l acc = Some (k + i).
Proof.
  revert i; induction l as [|x l IH]; intros i (Hlt & Hp & Hafter) k acc.
  - simpl in Hlt. lia.
  - destruct i as [|i]; simpl in *.
    + rewrite Hp, Nat.add_0_r. apply last_index_from_none.
      intros y Hy. destruct (In_nth _ _ "" Hy) as (j & Hj & <-).
      apply (Hafter (S j)); lia.
    + rewrite (IH i); [f_equal; lia|].
      repeat split; [lia | exact Hp |].
      intros j Hij Hj. apply (Hafter (S j)); lia.
Qed.

Lemma stripped_lines_absent (marker text : string) :
  ~ occurs_in marker text ->
  forall x, In x (map Py.strip (Py.readlines text)) -> Py.contains marker x = false.
Proof.
  intros Habs x Hx. apply in_map_iff in Hx. destruct Hx as (l & <- & Hl).
  destruct (Py.contains marker (Py.strip l)) eqn:E; [|reflexivity].
  exfalso. apply Habs. apply contains_occurs in E.
  eapply occurs_in_trans; [exact E|].
  eapply occurs_in_trans; [apply strip_occurs | now apply readlines_occurs].
Qed.

(** ** insert_api_docs: the three ways it ends *)

Section InsertFacts.
Variable render : Module_ -> string.
Variables (modules : py_modules) (into : Path) (between : string * string).
Variables (w : world) (text : string).
Hypothesis Htruth : modules_truth modules = true.
Hypothesis Hfile : node_at (fs w) into = Some (File text).

Let target_lines := map Py.strip (Py.readlines text).
Let docs := Py.join Py.linesep (map render (modules_items modules)).
Let read_trace := ((trace w ++ [Opened into "r+t"]) ++ [ReadAll into])%list.

Lemma insert_api_docs_run :
  insert_api_docs render modules into between w =
  match find_markers (fst between) (snd between) target_lines with
  | (Some b, Some e) =>
      if Nat.eqb b e
      then (Raise (ValueError EmptyRegion),
            mkWorld (fs w) (read_trace ++ [Closed into]))
      else
        let content := target_content_of target_lines docs b e in
        (Ret tt,
         mkWorld (set_content into content (set_content into "" (fs w)))
                 (((read_trace ++ [Truncated into])
                     ++ [Written into content]) ++ [Closed into]))
  | (b, e) =>
      (Raise (ValueError (MarkersNotFound into b e)),
       mkWorld (fs w) (read_trace ++ [Closed into]))
  end.
Proof.
  unfold insert_api_docs. rewrite Htruth. cbn [negb].
  unfold with_open. rewrite Hfile.
  unfold bind, emit, f_readlines. cbn [fs trace]. rewrite Hfile. cbn [fs trace].
  fold target_lines. fold docs.
  destruct (find_markers (fst between) (snd between) target_lines) as [[b|] [e|]];
    try reflexivity.
  destruct (Nat.eqb b e); reflexivity.
Qed.

Lemma insert_api_docs_raises_not_found :
  ~ occurs_in (fst between) text \/ ~ occurs_in (snd between) text ->
  exists b e,
    insert_api_docs render modules into between w =
    (Raise (ValueError (MarkersNotFound into b e)),
     mkWorld (fs w) (read_trace ++ [Closed into])).
Proof.
  intros Habs. rewrite insert_api_docs_run, find_markers_last_index.
  destruct Habs as [Habs | Habs];
    rewrite (last_index_from_none _ _ (stripped_lines_absent _ _ Habs)).
  - eexists _, _. reflexivity.
  - destruct (last_index_from _ 0 target_lines None); eexists _, _; reflexivity.
Qed.

Lemma insert_api_docs_raises_empty_region (i : nat) :
  is_last (Py.contains (fst between)) target_lines i ->
  is_last (Py.contains (snd between)) target_lines i ->
  insert_api_docs render modules into between w =
  (Raise (ValueError EmptyRegion), mkWorld (fs w) (read_trace ++ [Closed into])).
Proof.
  intros Hb He. rewrite insert_api_docs_run, find_markers_last_index.
  rewrite (last_index_from_is_last _ _ _ Hb), (last_index_from_is_last _ _ _ He).
  now rewrite Nat.eqb_refl.
Qed.

Lemma insert_api_docs_writes (b e : nat) :
  is_last (Py.contains (fst between)) target_lines b ->
  is_last (Py.contains (snd between)) target_lines e ->
  b <> e ->
  let content := target_content_of target_lines docs b e in
  insert_api_docs render modules into between w =
  (Ret tt,
   mkWorld (set_content into content (set_content into "" (fs w)))
           (((read_trace ++ [Truncated into])
               ++ [Written into content]) ++ [Closed into])).
Proof.
  intros Hb He Hne. rewrite insert_api_docs_run, find_markers_last_index.
  rewrite (last_index_from_is_last _ _ _ Hb), (last_index_from_is_last _ _ _ He).
  cbn [Nat.add]. apply Nat.eqb_neq in Hne. now rewrite Hne.
Qed.
End InsertFacts.

Lemma last_index_from_found (p : string -> bool) (l : list string) :
  forall k acc r,
    last_index_from p k l acc = Some r ->
    (acc = Some r /\ forall x, In x l -> p x = false) \/
    (k <= r /\ is_last p l (r - k)).
Proof.
  induction l as [|x l IH]; intros k acc r H; simpl in H.
  - left. split; [exact H | intros x []].
  - destruct (IH _ _ _ H) as [(Hacc & Hnone) | (Hk & Hlt & Hp & Hafter)].
    + destruct (p x) eqn:Hx.
      * right. injection Hacc as <-. rewrite Nat.sub_diag.
        split; [lia|]. repeat split; [simpl; lia | exact Hx |].
        intros [|j] H0 Hj; [lia|]. simpl in *. apply Hnone, nth_In. lia.
      * left. split; [exact Hacc|]. intros y [<- | Hy]; auto.
    + right. split; [lia|].
      replace (r - k) with (S (r - S k)) by lia.
      repeat split; [simpl; lia | exact Hp |].
      intros [|j] H0 Hj; [lia|]. simpl in *. apply Hafter; lia.
Qed.

Lemma is_last_of_last_index (p : string -> bool) (l : list string) (i : nat) :
  last_index_from p 0 l None = Some i -> is_last p l i.
Proof.
  intros H. destruct (last_index_from_found _ _ _ _ _ H) as [(Hacc & _) | (_ & Hl)].
  - discriminate.
  - now rewrite Nat.sub_0_r in Hl.
Qed.

(** ** Claims on insert_api_docs *)

(** C10. Called with a false [modules] value (an empty list),
    [insert_api_docs] returns at once: the world, that is the file system
    and the trace of file operations, is left as it was, whatever the target
    path holds, be it no file at all or a file without marker lines. *)
Theorem insert_api_docs_false_modules_returns :
  forall render modules into between w,
    modules_truth modules = false ->
    insert_api_docs render modules into between w = (Ret tt, w).
Proof.
  intros render modules into between w H.
  unfold insert_api_docs. now rewrite H.
Qed.

Lemma insert_api_docs_false_modules_returns_witness :
  modules_truth (ModList []) = false /\
  node_at (fs (world_of [])) api_md = None /\
  insert_api_docs render_heading (ModList []) api_md default_between (world_of [])
  = (Ret tt, world_of []).
Proof.
  split; [reflexivity|]. split; [reflexivity|].
  apply (insert_api_docs_false_modules_returns
           render_heading (ModList []) api_md default_between (world_of [])).
  reflexivity.
Defined.

(** C5, as stated, fails: with an empty list of modules no error is raised
    although the target file holds neither marker. *)
Lemma insert_api_docs_no_error_without_modules :
  ~ occurs_in (fst default_between) plain_page /\
  ~ occurs_in (snd default_between) plain_page /\
  forall e,
    fst (insert_api_docs render_heading (ModList []) api_md default_between
           (world_of [(api_md, plain_page)]))
    <> Raise (ValueError e).
Proof.
  split; [|split].
  - intros H. apply contains_occurs in H. vm_compute in H. discriminate.
  - intros H. apply contains_occurs in H. vm_compute in H. discriminate.
  - intros e. vm_compute. discriminate.
Qed.

(** C5, amended. Called with a true [modules] value on an existing target
    file, [insert_api_docs] raises [ValueError] when either marker does not
    occur in the file, and when the last line holding the begin marker is
    also the last line holding the end marker. In each case the file system
    is left as it was: the file is opened, read and closed, and nothing is
    truncated or written. *)
Theorem insert_api_docs_marker_errors :
  forall render modules into between w text,
    modules_truth modules = true ->
    node_at (fs w) into = Some (File text) ->
    (~ occurs_in (fst between) text \/
     ~ occurs_in (snd between) text \/
     exists i,
       is_last (Py.contains (fst between)) (map Py.strip (Py.readlines text)) i /\
       is_last (Py.contains (snd between)) (map Py.strip (Py.readlines text)) i) ->
    exists e,
      fst (insert_api_docs render modules into between w) = Raise (ValueError e) /\
      fs (snd (insert_api_docs render modules into between w)) = fs w /\
      trace (snd (insert_api_docs render modules into between w)) =
      (trace w ++ [Opened into "r+t"; ReadAll into; Closed into])%list.
Proof.
  intros render modules into between w text Ht Hf H.
  assert (Htr : forall (a b c : event),
             (((trace w ++ [a]) ++ [b]) ++ [c])%list = (trace w ++ [a; b; c])%list)
    by (intros; now rewrite <- !app_assoc).
  destruct H as [H | [H | (i & Hb & He)]].
  - destruct (insert_api_docs_raises_not_found render modules into between w text
                Ht Hf (or_introl H)) as (b & e & ->).
    eexists. cbn [fst snd fs trace]. rewrite Htr. auto.
  - destruct (insert_api_docs_raises_not_found render modules into between w text
                Ht Hf (or_intror H)) as (b & e & ->).
    eexists. cbn [fst snd fs trace]. rewrite Htr. auto.
  - rewrite (insert_api_docs_raises_empty_region render modules into between w text
               Ht Hf i Hb He).
    eexists. cbn [fst snd fs trace]. rewrite Htr. auto.
Qed.

Lemma insert_api_docs_marker_errors_witness :
  exists e,
    fst (insert_api_docs render_heading (ModList [sample_module]) api_md
           default_between (world_of [(api_md, plain_page)]))
    = Raise (ValueError e) /\
    fs (snd (insert_api_docs render_heading (ModList [sample_module]) api_md
               default_between (world_of [(api_md, plain_page)])))
    = fs (world_of [(api_md, plain_page)]) /\
    trace (snd (insert_api_docs render_heading (ModList [sample_module]) api_md
                  default_between (world_of [(api_md, plain_page)])))
    = (trace (world_of [(api_md, plain_page)])
         ++ [Opened api_md "r+t"; ReadAll api_md; Closed api_md])%list.
Proof.
  apply (insert_api_docs_marker_errors
           render_heading (ModList [sample_module]) api_md default_between
           (world_of [(api_md, plain_page)]) plain_page).
  - reflexivity.
  - reflexivity.
  - left. intros H. apply contains_occurs in H. vm_compute in H. discriminate.
Defined.

(** Both markers on one line: the region is empty and nothing is written. *)
Example insert_api_docs_one_line_page :
  insert_api_docs render_heading (ModList [sample_module]) api_md default_between
    (world_of [(api_md, one_line_page)])
  = (Raise (ValueError EmptyRegion),
     mkWorld (fs (world_of [(api_md, one_line_page)]))
             [Opened api_md "r+t"; ReadAll api_md; Closed api_md]).
Proof. vm_compute. reflexivity. Qed.

(** No file at the target path: opening fails. *)
Example insert_api_docs_missing_file :
  insert_api_docs render_heading (ModList [sample_module]) api_md default_between
    (world_of [])
  = (Raise (IOError api_md), world_of []).
Proof. reflexivity. Qed.

(** A generator is true even when it yields nothing: the markers are looked
    for and the region is replaced by empty docs. *)
Example insert_api_docs_empty_generator :
  fst (insert_api_docs render_heading (ModGenerator []) api_md default_between
         (world_of [(api_md, plain_page)]))
  = Raise (ValueError (MarkersNotFound api_md None None)).
Proof. vm_compute. reflexivity. Qed.




(** ** The scanner, one declaration at a time *)

Lemma header_loop_run (fuel : nat) (lines : list string) (j : nat)
      (func_header : string) (w : world) :
  header_loop fuel lines j func_header w =
  (if Py.contains "{" (nth j lines "")
   then match fuel with 0 => OutOfFuel | S _ => Ret func_header end
   else OutOfFuel, w).
Proof.
  revert func_header.
  induction fuel as [|fuel IH]; intros func_header; cbn [header_loop].
  - now destruct (Py.contains "{" (nth j lines "")).
  - destruct (Py.contains "{" (nth j lines "")) eqn:E; cbn [negb]; [reflexivity|].
    apply IH.
Qed.

Lemma fix_argnames_same (argnames : list string) : fix_argnames argnames = argnames.
Proof. reflexivity. Qed.

Lemma scan_function_run (fuel : nat) (lines : list string) (idx : nat)
      (functions : list Function_) (w : world) :
  scan_function fuel lines idx functions w =
  let line := nth idx lines "" in
  if Py.re_search_self line then (Ret functions, w)
  else match Py.re_match_pub_fn line with
       | None =>
           (Ret functions,
            mkWorld (fs w) (trace w ++ [Log WARNING (Spurious line)]))
       | Some raw_name =>
           if Py.contains "{" line then
             match fuel with
             | 0 => (OutOfFuel, w)
             | S _ =>
                 let func := function_of lines idx raw_name in
                 (Ret (functions ++ [func])%list,
                  mkWorld (fs w)
                    (trace w ++ [Log DEBUG (Found (f_name func)
                                              (od_keys (f_arguments func)) "?")]))
             end
           else (OutOfFuel, w)
       end.
Proof.
  unfold scan_function. cbv zeta.
  destruct (Py.re_search_self (nth idx lines "")); [reflexivity|].
  destruct (Py.re_match_pub_fn (nth idx lines "")) as [raw|]; [|reflexivity].
  unfold bind. rewrite header_loop_run.
  destruct (Py.contains "{" (nth idx lines "")); [|reflexivity].
  destruct fuel; reflexivity.
Qed.

(** ** Computations that only read the file system *)

Lemma reads_only_ret {A} (a : A) : reads_only (ret a).
Proof. intros w. split; [reflexivity | intros; reflexivity]. Qed.

Lemma reads_only_raise {A} (e : exn) : reads_only (@raise A e).
Proof. intros w. split; [reflexivity | intros; reflexivity]. Qed.

Lemma reads_only_out_of_fuel {A} : reads_only (@out_of_fuel A).
Proof. intros w. split; [reflexivity | intros; reflexivity]. Qed.

Lemma reads_only_emit (e : event) : reads_only (emit e).
Proof. intros w. split; [reflexivity | intros; reflexivity]. Qed.

Lemma reads_only_bind {A B} (m : M A) (k : A -> M B) :
  reads_only m -> (forall a, reads_only (k a)) -> reads_only (bind m k).
Proof.
  intros Hm Hk w. destruct (Hm w) as (Hfs & Hres). unfold bind.
  destruct (m w) as [r w1] eqn:E; cbn [fst snd] in *. split.
  - destruct r as [a| |]; cbn [snd]; try exact Hfs.
    destruct (Hk a w1) as (H1 & _). congruence.
  - intros w' Hw'. specialize (Hres w' Hw').
    destruct (Hm w') as (Hfs' & _).
    destruct (m w') as [r' w1'] eqn:E'; cbn [fst snd] in *. subst r'.
    destruct r as [a| |]; cbn [fst]; try reflexivity.
    destruct (Hk a w1) as (_ & H2). apply H2. congruence.
Qed.

Lemma reads_only_for_each {A S} (body : A -> S -> M S) :
  (forall x s, reads_only (body x s)) ->
  forall xs s, reads_only (for_each body xs s).
Proof.
  intros Hb xs. induction xs as [|x xs IH]; intros s; cbn [for_each].
  - apply reads_only_ret.
  - apply reads_only_bind; [apply Hb | intros s'; apply IH].
Qed.

Lemma reads_only_with_open {A} (p : Path) (mode : string) (body : M A) :
  reads_only body -> reads_only (with_open p mode body).
Proof.
  intros Hb.
  assert (Hm : reads_only (emit (Opened p mode) ;; body))
    by (apply reads_only_bind; [apply reads_only_emit | intros _; exact Hb]).
  intros w. unfold with_open. split.
  - destruct (node_at (fs w) p) as [[text|]|]; try reflexivity.
    destruct (Hm w) as (H1 & _).
    destruct ((emit (Opened p mode) ;; body) w) as [r w1]. exact H1.
  - intros w' Hw'. rewrite Hw'.
    destruct (node_at (fs w) p) as [[text|]|]; try reflexivity.
    destruct (Hm w) as (_ & H2). specialize (H2 w' Hw').
    destruct ((emit (Opened p mode) ;; body) w) as [r w1].
    destruct ((emit (Opened p mode) ;; body) w') as [r' w1']. exact H2.
Qed.

Lemma reads_only_f_readlines (p : Path) : reads_only (f_readlines p).
Proof.
  intros w. unfold f_readlines. split.
  - now destruct (node_at (fs w) p) as [[text|]|].
  - intros w' ->. now destruct (node_at (fs w) p) as [[text|]|].
Qed.

Lemma reads_only_path_glob_rs (dir : Path) : reads_only (path_glob_rs dir).
Proof.
  intros w. unfold path_glob_rs. split; [reflexivity | now intros w' ->].
Qed.

Lemma reads_only_glob2_glob (source : Path) : reads_only (glob2_glob source).
Proof.
  intros w. unfold glob2_glob. split; [reflexivity | now intros w' ->].
Qed.

Lemma reads_only_scan_function (fuel : nat) (lines : list string) (idx : nat)
      (functions : list Function_) :
  reads_only (scan_function fuel lines idx functions).
Proof.
  intros w. split; [|intros w' _]; rewrite !scan_function_run; cbv zeta;
    destruct (Py.re_search_self (nth idx lines "")); try reflexivity;
    destruct (Py.re_match_pub_fn (nth idx lines "")); try reflexivity;
    destruct (Py.contains "{" (nth idx lines "")); try reflexivity;
    destruct fuel; reflexivity.
Qed.

Lemma reads_only_describe_with (analyze : Path -> M Module_) (src : list src_arg) :
  (forall p, reads_only (analyze p)) -> reads_only (describe_with analyze src).
Proof.
  intros Ha. unfold describe_with.
  destruct (concat _) as [|p sources]; [apply reads_only_ret|].
  apply reads_only_for_each. intros source yielded.
  apply reads_only_bind; [apply reads_only_glob2_glob|]. intros filenames.
  apply reads_only_for_each. intros filename yielded'.
  apply reads_only_bind; [apply Ha|]. intros module.
  destruct (Module_truth module); apply reads_only_ret.
Qed.

Lemma reads_only_analyze_rust_module (fuel : nat) :
  forall path, reads_only (analyze_rust_module fuel path).
Proof.
  induction fuel as [|fuel IH]; intros path; cbn [analyze_rust_module].
  - apply reads_only_out_of_fuel.
  - apply reads_only_bind; [apply reads_only_emit|]. intros _.
    apply reads_only_bind.
    + destruct (String.eqb (stem path) "mod"); [|apply reads_only_ret].
      destruct (Path_truth (parent path)); [|apply reads_only_ret].
      apply reads_only_bind; [apply reads_only_path_glob_rs|]. intros siblings.
      apply reads_only_bind; [|intros; apply reads_only_ret].
      apply reads_only_for_each. intros sp subs.
      destruct (negb _); [|apply reads_only_ret].
      apply reads_only_bind; [|intros; apply reads_only_ret].
      apply reads_only_describe_with. exact IH.
    + intros named.
      apply reads_only_bind;
        [apply reads_only_with_open, reads_only_f_readlines|].
      intros lines.
      apply reads_only_bind;
        [apply reads_only_for_each; intros; apply reads_only_scan_function|].
      intros functions.
      apply reads_only_bind; [apply reads_only_emit | intros; apply reads_only_ret].
Qed.

(** What a computation that only reads returns does not depend on the
    trace it starts from. *)
Lemma reads_only_returns {A} (m : M A) (w w' : world) (a : A) :
  reads_only m -> fst (m w) = Ret a -> fs w' = fs w ->
  exists w'', m w' = (Ret a, w'') /\ fs w'' = fs w.
Proof.
  intros Hm Ha Hfs. destruct (Hm w) as (_ & H2). specialize (H2 w' Hfs).
  destruct (Hm w') as (H1 & _).
  destruct (m w') as [r w''] eqn:E; cbn [fst snd] in *.
  exists w''. split; [congruence | congruence].
Qed.

(** ** More fuel changes no result *)

Lemma extends_refl {A} (m : M A) : extends m m.
Proof. intros w a w1 H. exact H. Qed.

Lemma extends_bind {A B} (m m' : M A) (k k' : A -> M B) :
  extends m m' -> (forall a, extends (k a) (k' a)) ->
  extends (bind m k) (bind m' k').
Proof.
  intros Hm Hk w b w2. unfold bind.
  destruct (m w) as [[a| |] w1] eqn:E; try discriminate.
  rewrite (Hm _ _ _ E). apply Hk.
Qed.

Lemma extends_for_each {A S} (body body' : A -> S -> M S) :
  (forall x s, extends (body x s) (body' x s)) ->
  forall xs s, extends (for_each body xs s) (for_each body' xs s).
Proof.
  intros Hb xs. induction xs as [|x xs IH]; intros s; cbn [for_each].
  - apply extends_refl.
  - apply extends_bind; [apply Hb | intros s'; apply IH].
Qed.

Lemma extends_scan_function (fuel fuel' : nat) (lines : list string) (idx : nat)
      (functions : list Function_) :
  fuel <= fuel' ->
  extends (scan_function fuel lines idx functions)
          (scan_function fuel' lines idx functions).
Proof.
  intros Hle w a w1. rewrite !scan_function_run. cbv zeta.
  destruct (Py.re_search_self (nth idx lines "")); [auto|].
  destruct (Py.re_match_pub_fn (nth idx lines "")); [|auto].
  destruct (Py.contains "{" (nth idx lines "")); [|auto].
  destruct fuel; [discriminate|]. destruct fuel'; [lia | auto].
Qed.

Lemma extends_describe_with (analyze analyze' : Path -> M Module_)
      (src : list src_arg) :
  (forall p, extends (analyze p) (analyze' p)) ->
  extends (describe_with analyze src) (describe_with analyze' src).
Proof.
  intros Ha. unfold describe_with.
  destruct (concat _) as [|p sources]; [apply extends_refl|].
  apply extends_for_each. intros source yielded.
  apply extends_bind; [apply extends_refl|]. intros filenames.
  apply extends_for_each. intros filename yielded'.
  apply extends_bind; [apply Ha | intros module; apply extends_refl].
Qed.

Lemma analyze_rust_module_parts (fuel : nat) (path : Path) :
  analyze_rust_module (S fuel) path =
  (logging INFO (Analyzing path) ;;
   named <- resolve_module (analyze_rust_module fuel) path ;;
   scan_module (S fuel) path named).
Proof. reflexivity. Qed.

Lemma extends_resolve_module (analyze analyze' : Path -> M Module_) (path : Path) :
  (forall p, extends (analyze p) (analyze' p)) ->
  extends (resolve_module analyze path) (resolve_module analyze' path).
Proof.
  intros Ha. unfold resolve_module.
  destruct (String.eqb (stem path) "mod"); [|apply extends_refl].
  destruct (Path_truth (parent path)); [|apply extends_refl].
  apply extends_bind; [apply extends_refl|]. intros siblings.
  apply extends_bind; [|intros; apply extends_refl].
  apply extends_for_each. intros sp subs.
  destruct (negb _); [|apply extends_refl].
  apply extends_bind; [|intros; apply extends_refl].
  now apply extends_describe_with.
Qed.

Lemma extends_scan_module (fuel fuel' : nat) (path : Path)
      (named : string * list Module_) :
  fuel <= fuel' ->
  extends (scan_module fuel path named) (scan_module fuel' path named).
Proof.
  intros Hle. unfold scan_module.
  apply extends_bind; [apply extends_refl|]. intros lines.
  apply extends_bind; [|intros; apply extends_refl].
  apply extends_for_each. intros idx functions.
  now apply extends_scan_function.
Qed.

Lemma extends_analyze_rust_module (fuel : nat) :
  forall fuel' path,
    fuel <= fuel' ->
    extends (analyze_rust_module fuel path) (analyze_rust_module fuel' path).
Proof.
  induction fuel as [|fuel IH]; intros fuel' path Hle.
  - intros w a w1 H. discriminate.
  - destruct fuel' as [|fuel']; [lia|].
    rewrite !analyze_rust_module_parts.
    apply extends_bind; [apply extends_refl|]. intros _.
    apply extends_bind.
    + apply extends_resolve_module. intros p. apply IH. lia.
    + intros named. apply extends_scan_module. lia.
Qed.

(** ** Scanning a whole file *)

Lemma scan_all_returns (lines : list string) (idxs : list nat) :
  Forall (fun idx => Py.contains "{" (nth idx lines "") = true) idxs ->
  forall fuel functions w,
  exists functions' w',
    for_each (scan_function (S fuel) lines) idxs functions w = (Ret functions', w')
    /\ fs w' = fs w.
Proof.
  induction 1 as [|idx idxs Hidx _ IH]; intros fuel functions w; cbn [for_each].
  - exists functions, w. split; reflexivity.
  - unfold bind. rewrite scan_function_run. cbv zeta. rewrite Hidx.
    destruct (Py.re_search_self (nth idx lines "")).
    + apply IH.
    + destruct (Py.re_match_pub_fn (nth idx lines "")) as [raw|].
      * edestruct IH as (fns & w' & -> & Hfs). eexists _, _. split; [reflexivity|].
        exact Hfs.
      * edestruct IH as (fns & w' & -> & Hfs). eexists _, _. split; [reflexivity|].
        exact Hfs.
Qed.

Lemma open_readlines_run (path : Path) (mode : string) (w : world) (text : string) :
  node_at (fs w) path = Some (File text) ->
  with_open path mode (f_readlines path) w =
  (Ret (Py.readlines text),
   mkWorld (fs w)
           (((trace w ++ [Opened path mode]) ++ [ReadAll path]) ++ [Closed path])).
Proof.
  intros Hfile. unfold with_open. rewrite Hfile.
  unfold bind, emit, f_readlines. cbn [fs trace]. rewrite Hfile. reflexivity.
Qed.

Lemma scan_module_returns (path : Path) (w : world) (text : string) :
  node_at (fs w) path = Some (File text) ->
  headers_close (Py.readlines text) ->
  forall fuel named,
  exists functions w',
    scan_module (S fuel) path named w =
    (Ret (mkModule path (fst named) (module_docstring (Py.readlines text))
                   (snd named) functions), w')
    /\ fs w' = fs w.
Proof.
  intros Hfile Hclose fuel named.
  pose proof (open_readlines_run path "r" w text Hfile) as Eopen.
  set (w1 := mkWorld (fs w) _) in Eopen.
  destruct (scan_all_returns _ _ Hclose fuel [] w1) as (fns & w2 & E & Hfs).
  eexists fns, _. split.
  - unfold scan_module. unfold bind at 1. rewrite Eopen.
    unfold bind at 1. rewrite E. reflexivity.
  - exact Hfs.
Qed.

Lemma scan_module_fields (fuel : nat) (path : Path) (named : string * list Module_)
      (w w' : world) (m : Module_) :
  scan_module fuel path named w = (Ret m, w') ->
  m_path m = path /\ m_name m = fst named /\ m_submodules m = snd named.
Proof.
  unfold scan_module, bind.
  destruct (with_open path "r" (f_readlines path) w) as [[lines| |] w1];
    try discriminate.
  destruct (for_each _ _ _ w1) as [[functions| |] w2]; try discriminate.
  cbn. intros [= <- _]. repeat split.
Qed.

Lemma analyze_leaf_fields (fuel : nat) (path : Path) (w : world) (m : Module_) :
  String.eqb (stem path) "mod" = false ->
  fst (analyze_rust_module fuel path w) = Ret m ->
  m_path m = path /\ m_name m = stem path /\ m_submodules m = [].
Proof.
  intros Hleaf. destruct fuel as [|fuel]; [discriminate|].
  rewrite analyze_rust_module_parts. unfold resolve_module. rewrite Hleaf.
  unfold bind at 1 2, logging, emit, ret.
  destruct (scan_module _ _ _ _) as [r w'] eqn:E. cbn [fst]. intros ->.
  apply (scan_module_fields _ _ _ _ _ _ E).
Qed.

Lemma describe_with_single (analyze : Path -> M Module_) (p : Path)
      (w w' : world) (m : Module_) :
  glob (fs w) p = [p] ->
  analyze p w = (Ret m, w') ->
  describe_with analyze [SrcPath p] w = (Ret [m], w').
Proof.
  intros Hglob Ha. unfold describe_with. cbn [map concat app for_each].
  unfold bind, glob2_glob. rewrite Hglob. cbn [for_each]. unfold bind.
  rewrite Ha. reflexivity.
Qed.

Lemma submodules_loop_returns (analyze : Path -> M Module_) :
  (forall p, reads_only (analyze p)) ->
  forall (w0 : world) (all : list Path) (subs : list Module_),
    Forall (fun p => glob (fs w0) p = [p])
           (filter (fun p => negb (String.eqb (stem p) "mod")) all) ->
    Forall2 (fun p sub => fst (analyze p w0) = Ret sub)
            (filter (fun p => negb (String.eqb (stem p) "mod")) all) subs ->
    forall acc w, fs w = fs w0 ->
    exists w',
      for_each (fun submodule_path submodules =>
                  if negb (String.eqb (stem submodule_path) "mod") then
                    more <- describe_with analyze [SrcPath submodule_path] ;;
                    ret (submodules ++ more)%list
                  else ret submodules)
               all acc w
      = (Ret (acc ++ subs)%list, w') /\ fs w' = fs w0.
Proof.
  intros Hro w0 all. induction all as [|p all IH]; intros subs Hglob Hsubs acc w Hw;
    cbn [for_each filter] in *.
  - inversion Hsubs; subst. exists w. rewrite app_nil_r. split; [reflexivity | exact Hw].
  - unfold bind at 1. destruct (negb (String.eqb (stem p) "mod")) eqn:Hp.
    + inversion Hglob as [|? ? Hgp Hglob']; subst.
      inversion Hsubs as [|? sub ? subs' Hsub Hsubs']; subst.
      destruct (reads_only_returns (analyze p) w0 w sub (Hro p) Hsub Hw)
        as (w1 & Ha & Hw1).
      unfold bind at 1.
      rewrite (describe_with_single analyze p w w1 sub);
        [|rewrite Hw; exact Hgp | exact Ha].
      unfold ret at 1.
      destruct (IH subs' Hglob' Hsubs' (acc ++ [sub])%list w1 Hw1)
        as (w' & E & Hw').
      exists w'. rewrite E, <- app_assoc. split; [reflexivity | exact Hw'].
    + unfold ret at 1. apply IH; auto.
Qed.

Lemma analyze_leaf_diverges (path : Path) (w : world) (text : string)
      (idx : nat) (rest : list nat) (raw : string) :
  String.eqb (stem path) "mod" = false ->
  node_at (fs w) path = Some (File text) ->
  pub_fn_line_indices (Py.readlines text) = idx :: rest ->
  Py.re_search_self (nth idx (Py.readlines text) "") = false ->
  Py.re_match_pub_fn (nth idx (Py.readlines text) "") = Some raw ->
  Py.contains "{" (nth idx (Py.readlines text) "") = false ->
  forall fuel, fst (analyze_rust_module fuel path w) = OutOfFuel.
Proof.
  intros Hleaf Hfile Hidx Hself Hmatch Hbrace [|fuel]; [reflexivity|].
  rewrite analyze_rust_module_parts. unfold resolve_module. rewrite Hleaf.
  unfold bind at 1 2, logging, emit, ret.
  unfold scan_module. unfold bind at 1.
  rewrite (open_readlines_run path "r" (mkWorld (fs w) _) text Hfile).
  rewrite Hidx. cbn [for_each]. unfold bind at 1 2.
  rewrite scan_function_run. cbv zeta. rewrite Hself, Hmatch, Hbrace. reflexivity.
Qed.

Lemma docstring_loop_skips_head (a b : string) (lines : list string) (js : list nat) :
  Forall (fun j => 1 <= j) js ->
  docstring_loop (a :: lines) js = docstring_loop (b :: lines) js.
Proof.
  induction 1 as [|j js Hj _ IH]; cbn [docstring_loop]; [reflexivity|].
  destruct j as [|j]; [lia|]. cbn [nth]. rewrite IH. reflexivity.
Qed.

Lemma range_down_positive (start : nat) : Forall (fun j => 1 <= j) (range_down start 0).
Proof.
  unfold range_down. apply Forall_rev, Forall_forall.
  intros j Hj. apply in_seq in Hj. lia.
Qed.

Lemma rstrip_by_split (p : ascii -> bool) (s : string) :
  exists t, s = Py.rstrip_by p s ++ t /\ all_chars p t = true.
Proof.
  induction s as [|c s (t & IH & Ht)]; cbn [Py.rstrip_by]; [now exists ""|].
  destruct (Py.rstrip_by p s) as [|d r] eqn:E.
  - destruct (p c) eqn:Hc.
    + exists (String c s). split; [reflexivity|].
      cbn [all_chars]. rewrite Hc. cbn in IH. now subst t.
    + exists s. split; [reflexivity|]. cbn in IH. now subst t.
  - exists t. split; [|exact Ht]. cbn [append] in *. congruence.
Qed.

Lemma rstrip_by_last (p : ascii -> bool) (s r : string) (c : ascii) :
  Py.rstrip_by p s = r ++ String c "" -> p c = false.
Proof.
  revert r; induction s as [|d s IH]; intros r; cbn [Py.rstrip_by].
  - destruct r; discriminate.
  - destruct (Py.rstrip_by p s) as [|e t] eqn:E.
    + destruct (p d) eqn:Hd.
      * destruct r; discriminate.
      * destruct r as [|x r]; cbn [append].
        -- intros [= ->]. exact Hd.
        -- intros [= _ H]. destruct r; discriminate.
    + destruct r as [|x r]; cbn [append].
      * intros H. congruence.
      * intros [= -> H]. apply (IH r). exact H.
Qed.

Lemma headers_closeb_sound (lines : list string) :
  headers_closeb lines = true -> headers_close lines.
Proof.
  unfold headers_closeb, headers_close. intros H.
  apply Forall_forall. now apply forallb_forall.
Qed.

(** ** Claims on analyze_rust_module *)

(** The association stops at the first line that is not a doc comment. *)
Example docstring_stops_at_plain_comment :
  fst (analyze_rust_module 1 lib_rs
         (lib_world [ "// not a doc comment";
                      "/// Adds two numbers.";
                      "pub fn add(a: i32, b: i32) {" ]))
  = Ret (mkModule lib_rs "lib" "" []
           [mkFunction "add" "Adds two numbers." [("a", None); ("b", None)] None]).
Proof. vm_compute. reflexivity. Qed.

(** Methods are left out without a log record; a path-qualified type is not
    taken for a parameter. *)
Example methods_are_omitted :
  analyze_rust_module 1 lib_rs
    (lib_world [ "//! Values.";
                 "pub fn len(&self) -> usize {";
                 "pub fn parse(input: &str, mode: Mode::Strict) {" ])
  = (Ret (mkModule lib_rs "lib" "Values." []
            [mkFunction "parse" "" [("input", None); ("mode", None)] None]),
     mkWorld (fs (lib_world [ "//! Values.";
                              "pub fn len(&self) -> usize {";
                              "pub fn parse(input: &str, mode: Mode::Strict) {" ]))
             [ Log INFO (Analyzing lib_rs);
               Opened lib_rs "r"; ReadAll lib_rs; Closed lib_rs;
               Log DEBUG (Found "parse" ["input"; "mode"] "?");
               Log INFO (ModuleHad "lib" 1 1) ]).
Proof. vm_compute. reflexivity. Qed.

(** A file that cannot be opened ends the analysis with an error. *)
Example missing_file_raises :
  fst (analyze_rust_module 1 lib_rs (world_of [])) = Raise (IOError lib_rs).
Proof. reflexivity. Qed.

(** C1 (not met by the code). The trimming of a trailing [context] parameter
    compares the list [argnames[:-1]] with the string ['context'], which is
    never equal: the names are kept as extracted, and for the header
    [pub fn f(a: i32, context: &Ctx) {] the arguments are [a] and
    [context]. *)
Theorem trailing_context_is_kept :
  (forall argnames, fix_argnames argnames = argnames) /\
  fst (analyze_rust_module 1 lib_rs
         (lib_world ["pub fn f(a: i32, context: &Ctx) {"]))
  = Ret (mkModule lib_rs "lib" "" []
           [mkFunction "f" "" [("a", None); ("context", None)] None]).
Proof.
  split; [intros; apply fix_argnames_same | vm_compute; reflexivity].
Qed.

(** C2 (not met by the code). The loop that accumulates the header tests
    line [j] and never advances [j]: it ends at once with the index line as
    header when that line holds the brace, and never ends otherwise. The
    analysis of a file whose declaration opens its body on the next line has
    no outcome, whatever the fuel. *)
Theorem header_accumulation_never_advances :
  (forall fuel lines j func_header w,
      header_loop fuel lines j func_header w =
      (if Py.contains "{" (nth j lines "")
       then match fuel with 0 => OutOfFuel | S _ => Ret func_header end
       else OutOfFuel, w)) /\
  (forall fuel,
      fst (analyze_rust_module fuel lib_rs
             (lib_world ["pub fn f(a: i32,"; "         b: i32) {"]))
      = OutOfFuel).
Proof.
  split; [apply header_loop_run|].
  apply (analyze_leaf_diverges lib_rs _
           (text_of ["pub fn f(a: i32,"; "         b: i32) {"]) 0 [] "f");
    vm_compute; reflexivity.
Qed.

(** C3 (not met by the code). The backward scan runs over
    [range(idx - 1, 0, -1)], which stops before index 0: the docstring does
    not depend on line 0, and a doc comment on the first line of the file is
    left out of the description of the function declared on the second. *)
Theorem doc_comment_on_line_0_is_left_out :
  (forall a b lines idx,
      extract_docstring (a :: lines) idx = extract_docstring (b :: lines) idx) /\
  fst (analyze_rust_module 1 lib_rs
         (lib_world ["/// Adds two numbers."; "pub fn add(a: i32, b: i32) {"]))
  = Ret (mkModule lib_rs "lib" "" []
           [mkFunction "add" "" [("a", None); ("b", None)] None]).
Proof.
  split; [|vm_compute; reflexivity].
  intros a b lines idx. unfold extract_docstring.
  now rewrite (docstring_loop_skips_head a b lines _ (range_down_positive _)).
Qed.

(** C6 (not met by the code). The name pattern is matched at the first
    character of the line as read, not of the left-trimmed line: a line that
    starts with a space never matches, and an indented declaration is logged
    as spurious and yields no Function. *)
Theorem indented_declaration_is_spurious :
  (forall rest, Py.re_match_pub_fn (String " " rest) = None) /\
  fst (analyze_rust_module 1 lib_rs (lib_world ["    pub fn foo(a: i32) {"]))
  = Ret (mkModule lib_rs "lib" "" [] []) /\
  In (Log WARNING (Spurious ("    pub fn foo(a: i32) {" ++ Py.linesep)))
     (trace (snd (analyze_rust_module 1 lib_rs
                    (lib_world ["    pub fn foo(a: i32) {"])))).
Proof.
  split; [intros; reflexivity|].
  split; [vm_compute; reflexivity|].
  vm_compute. tauto.
Qed.

(** C8. A declaration line that is not a method, matches the name pattern
    and holds the opening brace adds one Function to the list: its name is
    the declared name without its trailing underscores (the declared name is
    the stored name followed by underscores only, and the stored name does
    not end with one), its arguments are the names extracted from the line.
    For [pub fn type_(x: i32) {] the name is [type] and the arguments
    are [x]. *)
Theorem suffix_is_stripped_from_name :
  forall fuel lines idx functions w raw,
    Py.re_search_self (nth idx lines "") = false ->
    Py.re_match_pub_fn (nth idx lines "") = Some raw ->
    Py.contains "{" (nth idx lines "") = true ->
    let func := function_of lines idx raw in
    fst (scan_function (S fuel) lines idx functions w) = Ret (functions ++ [func])%list /\
    (exists t, raw = f_name func ++ t /\ all_chars (Ascii.eqb "_") t = true) /\
    (forall s, f_name func <> s ++ "_") /\
    od_keys (f_arguments func)
    = od_keys (od_of_pairs (zip_repeat_None (Py.re_finditer_args (nth idx lines "")))).
Proof.
  intros fuel lines idx functions w raw Hself Hmatch Hbrace func.
  split; [|split; [|split; [|reflexivity]]].
  - rewrite scan_function_run. cbv zeta. now rewrite Hself, Hmatch, Hbrace.
  - destruct (rstrip_by_split (Py.in_chars "_") raw) as (t & Ht & Hall).
    exists t. split; [exact Ht|].
    clear -Hall. induction t as [|c t IH]; [reflexivity|].
    cbn [all_chars Py.in_chars] in *. rewrite orb_false_r in Hall.
    apply andb_prop in Hall. destruct Hall as (Hc & Hall).
    rewrite Ascii.eqb_sym, Hc. cbn. auto.
  - intros s Hs. cbn [func function_of f_name] in Hs.
    apply rstrip_by_last in Hs. discriminate.
Qed.

Lemma suffix_is_stripped_from_name_witness :
  fst (scan_function 1 ["pub fn type_(x: i32) {" ++ Py.linesep] 0 []
         (lib_world ["pub fn type_(x: i32) {"]))
  = Ret [mkFunction "type" "" [("x", None)] None] /\
  fst (analyze_rust_module 1 lib_rs (lib_world ["pub fn type_(x: i32) {"]))
  = Ret (mkModule lib_rs "lib" "" [] [mkFunction "type" "" [("x", None)] None]).
Proof.
  split.
  - exact (proj1 (suffix_is_stripped_from_name
                    0 ["pub fn type_(x: i32) {" ++ Py.linesep] 0 []
                    (lib_world ["pub fn type_(x: i32) {"]) "type_"
                    eq_refl eq_refl eq_refl)).
  - reflexivity.
Defined.

Lemma resolve_module_aggregator (fuel : nat) (path : Path) (w : world)
      (subs : list Module_) :
  stem path = "mod" ->
  Forall (fun p => glob (fs w) p = [p]) (submodule_paths (fs w) path) ->
  Forall2 (fun p sub => fst (analyze_rust_module fuel p w) = Ret sub)
          (submodule_paths (fs w) path) subs ->
  forall w1, fs w1 = fs w ->
  exists w2,
    resolve_module (analyze_rust_module fuel) path w1
    = (Ret (stem (parent path), subs), w2) /\ fs w2 = fs w.
Proof.
  intros Hmod Hglob Hsubs w1 Hw1.
  destruct (submodules_loop_returns (analyze_rust_module fuel)
              (reads_only_analyze_rust_module fuel) w _ subs Hglob Hsubs [] w1 Hw1)
    as (w2 & Eloop & Hw2).
  exists w2. split; [|exact Hw2].
  unfold resolve_module. rewrite Hmod, String.eqb_refl. unfold Path_truth.
  unfold bind at 1, path_glob_rs. cbv beta. rewrite Hw1.
  unfold bind at 1. rewrite Eloop. reflexivity.
Qed.

Lemma leaf_names (fuel : nat) (w : world) (ps : list Path) (subs : list Module_) :
  Forall (fun p => String.eqb (stem p) "mod" = false) ps ->
  Forall2 (fun p sub => fst (analyze_rust_module fuel p w) = Ret sub) ps subs ->
  map m_name subs = map stem ps.
Proof.
  intros Hleaf Hsubs. induction Hsubs as [|p sub ps subs' Hp _ IH]; [reflexivity|].
  inversion Hleaf as [|? ? Hl Hleaf']; subst. cbn [map]. f_equal.
  - now destruct (analyze_leaf_fields fuel p w sub Hl Hp) as (_ & Hname & _).
  - apply IH. exact Hleaf'.
Qed.

Lemma submodule_paths_leaves (f : FS) (path : Path) :
  Forall (fun p => String.eqb (stem p) "mod" = false) (submodule_paths f path).
Proof.
  unfold submodule_paths. apply Forall_forall. intros p Hp.
  apply filter_In in Hp. destruct Hp as (_ & Hp).
  now apply negb_true_iff in Hp.
Qed.

(** C9. When a run of the analysis returns a Module, the file system is as
    it was before the run, a second run started from the world the first one
    left returns the same Module, and so does any run on the same path that
    returns, from any world with the same file system and with any fuel:
    the Module depends on the path and on the files only (the listing order
    of a directory being part of the file system). *)
Theorem analyze_rust_module_deterministic :
  forall fuel path w m w1,
    analyze_rust_module fuel path w = (Ret m, w1) ->
    fs w1 = fs w /\
    (exists w2, analyze_rust_module fuel path w1 = (Ret m, w2)) /\
    (forall fuel' w' m',
        fs w' = fs w ->
        fst (analyze_rust_module fuel' path w') = Ret m' -> m' = m).
Proof.
  intros fuel path w m w1 Hrun.
  assert (Hfs : fs w1 = fs w).
  { destruct (reads_only_analyze_rust_module fuel path w) as (H & _).
    now rewrite Hrun in H. }
  assert (Hfst : fst (analyze_rust_module fuel path w) = Ret m) by (now rewrite Hrun).
  split; [exact Hfs|]. split.
  - destruct (reads_only_returns _ w w1 m
                (reads_only_analyze_rust_module fuel path) Hfst Hfs) as (w2 & H & _).
    now exists w2.
  - intros fuel' w' m' Hw' Hrun'.
    destruct (analyze_rust_module fuel' path w') as [r' w1'] eqn:E'.
    cbn [fst] in Hrun'. subst r'.
    pose proof (extends_analyze_rust_module fuel (Nat.max fuel fuel') path
                  (Nat.le_max_l _ _) _ _ _ Hrun) as H1.
    pose proof (extends_analyze_rust_module fuel' (Nat.max fuel fuel') path
                  (Nat.le_max_r _ _) _ _ _ E') as H2.
    destruct (reads_only_analyze_rust_module (Nat.max fuel fuel') path w) as (_ & H).
    specialize (H w' Hw'). rewrite H1, H2 in H. cbn [fst] in H. congruence.
Qed.

Lemma analyze_rust_module_deterministic_witness :
  exists m w1,
    analyze_rust_module 2 api_mod_rs (world_of api_files) = (Ret m, w1) /\
    fs w1 = fs (world_of api_files) /\
    (exists w2, analyze_rust_module 2 api_mod_rs w1 = (Ret m, w2)) /\
    trace w1 <> trace (world_of api_files).
Proof.
  destruct (analyze_rust_module 2 api_mod_rs (world_of api_files)) as [r w1] eqn:E.
  assert (Hr : r = fst (analyze_rust_module 2 api_mod_rs (world_of api_files)))
    by (now rewrite E).
  assert (Hw : trace w1 = trace (snd (analyze_rust_module 2 api_mod_rs (world_of api_files))))
    by (now rewrite E).
  vm_compute in Hr. subst r.
  eexists _, w1. split; [reflexivity|].
  destruct (analyze_rust_module_deterministic 2 api_mod_rs (world_of api_files) _ w1 E)
    as (H1 & H2 & _).
  split; [exact H1|]. split; [exact H2|].
  rewrite Hw. vm_compute. discriminate.
Defined.

(** ** The scanner in closed form *)

Lemma scan_all_run (lines : list string) (fuel : nat) (idxs : list nat) :
  forall functions w,
    fst (for_each (scan_function (S fuel) lines) idxs functions w) =
    if existsb (stuck lines) idxs then OutOfFuel
    else Ret (functions ++ flat_map (scanned lines) idxs)%list.
Proof.
  induction idxs as [|idx idxs IH]; intros functions w;
    cbn [for_each existsb flat_map].
  - cbn. now rewrite app_nil_r.
  - unfold bind. rewrite scan_function_run. unfold stuck, scanned. cbv zeta.
    destruct (Py.re_search_self (nth idx lines "")); cbn [negb andb orb app].
    + apply IH.
    + destruct (Py.re_match_pub_fn (nth idx lines "")) as [raw|];
        cbn [negb andb orb app]; [|apply IH].
      destruct (Py.contains "{" (nth idx lines "")); cbn [negb andb orb];
        [|reflexivity].
      rewrite IH. destruct (existsb _ idxs); [reflexivity|].
      now rewrite <- app_assoc.
Qed.

Lemma scan_module_run (fuel : nat) (path : Path) (named : string * list Module_)
      (w : world) (text : string) :
  node_at (fs w) path = Some (File text) ->
  fst (scan_module (S fuel) path named w) =
  if existsb (stuck (Py.readlines text)) (pub_fn_line_indices (Py.readlines text))
  then OutOfFuel
  else Ret (mkModule path (fst named) (module_docstring (Py.readlines text))
                     (snd named) (scanned_functions (Py.readlines text))).
Proof.
  intros Hfile. unfold scan_module. unfold bind at 1.
  rewrite (open_readlines_run path "r" w text Hfile).
  unfold bind at 1.
  match goal with
  | |- context [for_each ?b ?xs ?a ?W] =>
      pose proof (scan_all_run (Py.readlines text) fuel xs a W) as H;
      destruct (for_each b xs a W) as [r w2]
  end.
  cbn [fst] in H. subst r.
  destruct (existsb _ _); reflexivity.
Qed.

Lemma scan_module_not_a_file (fuel : nat) (path : Path)
      (named : string * list Module_) (w : world) :
  (forall text, node_at (fs w) path <> Some (File text)) ->
  scan_module fuel path named w = (Raise (IOError path), w).
Proof.
  intros Hno. unfold scan_module, bind, with_open.
  destruct (node_at (fs w) path) as [[text|]|]; try reflexivity.
  now destruct (Hno text).
Qed.

Lemma analyze_leaf_parts (fuel : nat) (path : Path) (w : world) :
  String.eqb (stem path) "mod" = false ->
  analyze_rust_module (S fuel) path w =
  scan_module (S fuel) path (stem path, [])
              (mkWorld (fs w) (trace w ++ [Log INFO (Analyzing path)])).
Proof.
  intros Hleaf. rewrite analyze_rust_module_parts. unfold resolve_module.
  rewrite Hleaf. reflexivity.
Qed.

(** ** Further properties of analyze_rust_module *)

(** X1. The analysis of a readable file that is not an aggregator, none of
    whose declaration lines keeps the header loop running, returns for any
    positive fuel the Module of that path, named after its stem, without
    submodules, whose functions are those of the declaration lines that are
    not methods and match the name pattern, in source order. *)
Theorem leaf_functions_in_source_order :
  forall fuel path w text,
    String.eqb (stem path) "mod" = false ->
    node_at (fs w) path = Some (File text) ->
    existsb (stuck (Py.readlines text)) (pub_fn_line_indices (Py.readlines text))
    = false ->
    fst (analyze_rust_module (S fuel) path w) =
    Ret (mkModule path (stem path) (module_docstring (Py.readlines text)) []
                  (flat_map (scanned (Py.readlines text))
                            (pub_fn_line_indices (Py.readlines text)))).
Proof.
  intros fuel path w text Hleaf Hfile Hstuck.
  rewrite (analyze_leaf_parts fuel path w Hleaf).
  rewrite (scan_module_run fuel path _ (mkWorld (fs w) _) text Hfile), Hstuck.
  reflexivity.
Qed.

Lemma leaf_functions_in_source_order_witness :
  fst (analyze_rust_module 1 lib_rs (lib_world values_lines)) =
  Ret (mkModule lib_rs "lib" "Values." []
         [mkFunction "parse" "Parses the input." [("input", None); ("mode", None)] None]).
Proof.
  exact (leaf_functions_in_source_order 0 lib_rs (lib_world values_lines)
           (text_of values_lines) eq_refl eq_refl eq_refl).
Defined.

(** X2. The analysis of a readable file that is not an aggregator ends
    (with some fuel) exactly when no declaration line that is not a method
    and matches the name pattern lacks the opening brace; otherwise it has
    no outcome, whatever the fuel. *)
Theorem leaf_analysis_ends_iff_headers_open :
  forall path w text,
    String.eqb (stem path) "mod" = false ->
    node_at (fs w) path = Some (File text) ->
    let lines := Py.readlines text in
    ((exists fuel m, fst (analyze_rust_module fuel path w) = Ret m) <->
     existsb (stuck lines) (pub_fn_line_indices lines) = false) /\
    (existsb (stuck lines) (pub_fn_line_indices lines) = true ->
     forall fuel, fst (analyze_rust_module fuel path w) = OutOfFuel).
Proof.
  intros path w text Hleaf Hfile lines.
  assert (Hrun : forall fuel,
             fst (analyze_rust_module (S fuel) path w) =
             if existsb (stuck lines) (pub_fn_line_indices lines) then OutOfFuel
             else Ret (mkModule path (stem path) (module_docstring lines) []
                                (scanned_functions lines))).
  { intros fuel. rewrite (analyze_leaf_parts fuel path w Hleaf).
    rewrite (scan_module_run fuel path _ (mkWorld (fs w) _) text Hfile).
    reflexivity. }
  split; [split|].
  - intros (fuel & m & H). destruct fuel as [|fuel]; [discriminate|].
    rewrite Hrun in H. now destruct (existsb _ _).
  - intros H. exists 1. eexists. rewrite Hrun, H. reflexivity.
  - intros H [|fuel]; [reflexivity|]. now rewrite Hrun, H.
Qed.

Lemma leaf_analysis_ends_iff_headers_open_witness :
  (forall fuel, fst (analyze_rust_module fuel lib_rs (lib_world wrapped_lines))
                = OutOfFuel) /\
  exists fuel m, fst (analyze_rust_module fuel lib_rs (lib_world values_lines)) = Ret m.
Proof.
  split.
  - apply (proj2 (leaf_analysis_ends_iff_headers_open
                    lib_rs (lib_world wrapped_lines) (text_of wrapped_lines)
                    eq_refl eq_refl)).
    reflexivity.
  - apply (proj1 (leaf_analysis_ends_iff_headers_open
                    lib_rs (lib_world values_lines) (text_of values_lines)
                    eq_refl eq_refl)).
    reflexivity.
Defined.

(** X3. The outcome of the analysis of a file that is not an aggregator
    depends on what is at its own path only: two file systems that agree
    there give the same outcome, whatever else they hold. *)
Theorem leaf_analysis_reads_one_file :
  forall fuel path w w',
    String.eqb (stem path) "mod" = false ->
    node_at (fs w) path = node_at (fs w') path ->
    fst (analyze_rust_module fuel path w) = fst (analyze_rust_module fuel path w').
Proof.
  intros [|fuel] path w w' Hleaf Hsame; [reflexivity|].
  rewrite !(analyze_leaf_parts fuel path _ Hleaf).
  destruct (node_at (fs w) path) as [[text|]|] eqn:E.
  - rewrite (scan_module_run fuel path _ _ text);
      [|cbn [fs]; exact E].
    rewrite (scan_module_run fuel path _ _ text);
      [reflexivity | cbn [fs]; now rewrite <- Hsame].
  - rewrite !scan_module_not_a_file; [reflexivity | |];
      cbn [fs]; intros text; congruence.
  - rewrite !scan_module_not_a_file; [reflexivity | |];
      cbn [fs]; intros text; congruence.
Qed.

Lemma leaf_analysis_reads_one_file_witness :
  fst (analyze_rust_module 1 (rel ["api"; "math.rs"]) (world_of api_files)) =
  fst (analyze_rust_module 1 (rel ["api"; "math.rs"])
         (world_of [(rel ["api"; "math.rs"],
                     text_of ["pub fn abs(x: Value) -> eval::Result {"])])).
Proof.
  apply (leaf_analysis_reads_one_file 1 (rel ["api"; "math.rs"])); reflexivity.
Defined.

(** X4. When nothing, or a directory, is at the path of a file that is not
    an aggregator, the analysis raises [IOError] after its first log
    record: no Module is returned and nothing else is logged or opened. *)
Theorem leaf_analysis_of_missing_file :
  forall fuel path w,
    String.eqb (stem path) "mod" = false ->
    (forall text, node_at (fs w) path <> Some (File text)) ->
    analyze_rust_module (S fuel) path w =
    (Raise (IOError path),
     mkWorld (fs w) (trace w ++ [Log INFO (Analyzing path)])).
Proof.
  intros fuel path w Hleaf Hno.
  rewrite (analyze_leaf_parts fuel path w Hleaf).
  now apply scan_module_not_a_file.
Qed.

Lemma leaf_analysis_of_missing_file_witness :
  analyze_rust_module 1 lib_rs (world_of api_files) =
  (Raise (IOError lib_rs),
   mkWorld (fs (world_of api_files)) [Log INFO (Analyzing lib_rs)]).
Proof.
  apply (leaf_analysis_of_missing_file 0 lib_rs (world_of api_files)).
  - reflexivity.
  - intros text. discriminate.
Defined.

(** ** What the scanner builds *)

Lemma span_fst_all (p : ascii -> bool) (s : string) :
  all_chars p (fst (Py.span p s)) = true.
Proof.
  induction s as [|c s IH]; cbn [Py.span]; [reflexivity|].
  destruct (p c) eqn:Hc; [|reflexivity].
  destruct (Py.span p s) as [a b]. cbn [fst all_chars] in *. now rewrite Hc.
Qed.

Lemma all_chars_app (p : ascii -> bool) (a b : string) :
  all_chars p (a ++ b) = all_chars p a && all_chars p b.
Proof.
  induction a as [|c a IH]; cbn [append all_chars]; [reflexivity|].
  now rewrite IH, andb_assoc.
Qed.

Lemma match_arg_identifier (s name : string) (len : nat) :
  Py.match_arg s = Some (name, len) -> identifier name.
Proof.
  unfold Py.match_arg. pose proof (span_fst_all Py.is_word s) as Hall.
  destruct (Py.span Py.is_word s) as [[|c a] r]; [discriminate|].
  destruct (Py.span Py.re_space r) as [sp [|d r']]; [discriminate|].
  destruct (Ascii.eqb_spec d ":") as [->|Hd].
  - destruct (String.prefix ":" r'); [discriminate|].
    intros [= <- _]. split; [discriminate | exact Hall].
  - intros H. exfalso. revert H.
    destruct d as [[] [] [] [] [] [] [] []]; try discriminate.
    now destruct Hd.
Qed.

Lemma finditer_args_identifiers (s : string) :
  forall skip, Forall identifier (Py.finditer_args_from skip s).
Proof.
  induction s as [|c s IH]; intros skip; cbn [Py.finditer_args_from];
    [constructor|].
  destruct skip as [|k]; [|apply IH].
  destruct (Py.match_arg (String c s)) as [[name len]|] eqn:E; [|apply IH].
  constructor; [eapply match_arg_identifier; exact E | apply IH].
Qed.

Lemma in_od_set (k k' : string) (v : option string) (d : OrderedDict) :
  In k' (od_keys (od_set k v d)) <-> k' = k \/ In k' (od_keys d).
Proof.
  induction d as [|[k0 v0] d IH]; cbn [od_set od_keys map fst In].
  - intuition.
  - destruct (String.eqb_spec k k0) as [->|Hne]; cbn [od_keys map fst In].
    + intuition.
    + fold (od_keys (od_set k v d)). rewrite IH. unfold od_keys. intuition.
Qed.

Lemma NoDup_od_set (k : string) (v : option string) (d : OrderedDict) :
  NoDup (od_keys d) -> NoDup (od_keys (od_set k v d)).
Proof.
  induction d as [|[k0 v0] d IH]; cbn [od_set od_keys map fst]; intros Hnd.
  - constructor; [intros [] | constructor].
  - destruct (String.eqb_spec k k0) as [->|Hne]; cbn [od_keys map fst].
    + exact Hnd.
    + inversion Hnd as [|? ? Hnotin Hnd']; subst.
      constructor; [|apply IH; exact Hnd'].
      fold (od_keys (od_set k v d)). rewrite in_od_set.
      intros [Heq | Hin]; [congruence | exact (Hnotin Hin)].
Qed.

Lemma values_od_set (k : string) (d : OrderedDict) :
  Forall (fun kv => snd kv = None) d ->
  Forall (fun kv => snd kv = None) (od_set k None d).
Proof.
  induction d as [|[k0 v0] d IH]; cbn [od_set]; intros H.
  - repeat constructor.
  - inversion H; subst.
    destruct (String.eqb k k0); constructor; auto.
Qed.

Lemma od_of_names (names : list string) :
  NoDup (od_keys (od_of_pairs (zip_repeat_None names))) /\
  Forall (fun kv => snd kv = None) (od_of_pairs (zip_repeat_None names)) /\
  (forall k, In k (od_keys (od_of_pairs (zip_repeat_None names))) <-> In k names).
Proof.
  unfold od_of_pairs, zip_repeat_None.
  enough (H : forall d,
             NoDup (od_keys d) -> Forall (fun kv => snd kv = None) d ->
             let d' := fold_left (fun d kv => od_set (fst kv) (snd kv) d)
                                 (map (fun a => (a, @None string)) names) d in
             NoDup (od_keys d') /\ Forall (fun kv => snd kv = None) d' /\
             (forall k, In k (od_keys d') <-> In k (od_keys d) \/ In k names)).
  { destruct (H [] (NoDup_nil _) (Forall_nil _)) as (H1 & H2 & H3).
    split; [exact H1|]. split; [exact H2|].
    intros k. rewrite H3. cbn. tauto. }
  induction names as [|a names IH]; intros d Hnd Hv; cbn [map fold_left fst snd].
  - cbv zeta. split; [exact Hnd|]. split; [exact Hv|]. intros k. cbn. tauto.
  - destruct (IH (od_set a None d) (NoDup_od_set a None d Hnd) (values_od_set a d Hv))
      as (H1 & H2 & H3).
    cbv zeta in *. split; [exact H1|]. split; [exact H2|].
    intros k. rewrite H3, in_od_set. cbn [In]. intuition.
Qed.

Lemma re_match_pub_fn_word (s name : string) :
  Py.re_match_pub_fn s = Some name -> all_chars Py.is_word name = true.
Proof.
  unfold Py.re_match_pub_fn.
  destruct (Py.after "pub" s) as [r1|]; [|discriminate].
  destruct (Py.spaces1 r1) as [r2|]; [|discriminate].
  destruct (Py.after "fn" r2) as [r3|]; [|discriminate].
  destruct (Py.spaces1 r3) as [r4|]; [|discriminate].
  pose proof (span_fst_all Py.is_word r4) as Hall.
  destruct (Py.span Py.is_word r4) as [[|c a] [|d r]]; try discriminate.
  destruct (Ascii.eqb_spec d "(") as [->|Hd].
  - intros [= <-]. exact Hall.
  - intros H. exfalso. revert H.
    destruct d as [[] [] [] [] [] [] [] []]; try discriminate.
    now destruct Hd.
Qed.

Lemma function_of_well_formed (lines : list string) (idx : nat) (raw : string) :
  all_chars Py.is_word raw = true ->
  well_formed_function (function_of lines idx raw).
Proof.
  intros Hraw. unfold well_formed_function, function_of.
  cbn [f_name f_returns f_arguments].
  destruct (od_of_names (Py.re_finditer_args (nth idx lines ""))) as (H1 & H2 & H3).
  split; [|split; [|split; [|split; [|split]]]]; auto.
  - intros s Hs. apply rstrip_by_last in Hs. discriminate.
  - destruct (rstrip_by_split (Py.in_chars "_") raw) as (t & Ht & _).
    rewrite Ht, all_chars_app in Hraw at 1. now apply andb_prop in Hraw.
  - apply Forall_forall. intros k Hk. apply H3 in Hk.
    pose proof (finditer_args_identifiers (nth idx lines "") 0) as Hid.
    rewrite Forall_forall in Hid. now apply Hid.
Qed.

Lemma scanned_well_formed (lines : list string) (idxs : list nat) :
  Forall well_formed_function (flat_map (scanned lines) idxs).
Proof.
  apply Forall_forall. intros f Hf. apply in_flat_map in Hf.
  destruct Hf as (idx & _ & Hf). unfold scanned in Hf. cbv zeta in Hf.
  destruct (Py.re_search_self (nth idx lines "")); [destruct Hf|].
  destruct (Py.re_match_pub_fn (nth idx lines "")) as [raw|] eqn:E; [|destruct Hf].
  destruct Hf as [<- | []]. apply function_of_well_formed.
  eapply re_match_pub_fn_word. exact E.
Qed.

Lemma analyze_returns_parts (fuel : nat) (path : Path) (w w' : world) (m : Module_) :
  analyze_rust_module fuel path w = (Ret m, w') ->
  exists fuel' named w1 w2,
    fuel = S fuel' /\
    resolve_module (analyze_rust_module fuel') path w1 = (Ret named, w2) /\
    fs w1 = fs w /\
    scan_module (S fuel') path named w2 = (Ret m, w').
Proof.
  destruct fuel as [|fuel]; [discriminate|].
  rewrite analyze_rust_module_parts. unfold bind at 1, logging, emit.
  unfold bind at 1.
  destruct (resolve_module _ _ _) as [[named| |] w2] eqn:E; try discriminate.
  intros H. exists fuel, named. eexists _, w2.
  split; [reflexivity|]. split; [exact E|]. split; [reflexivity | exact H].
Qed.

Lemma scan_module_functions (fuel : nat) (path : Path)
      (named : string * list Module_) (w w' : world) (m : Module_) :
  scan_module (S fuel) path named w = (Ret m, w') ->
  exists lines,
    m_functions m = flat_map (scanned lines) (pub_fn_line_indices lines).
Proof.
  unfold scan_module. unfold bind at 1.
  destruct (with_open path "r" (f_readlines path) w) as [[lines| |] w1];
    try discriminate.
  unfold bind at 1.
  pose proof (scan_all_run lines fuel (pub_fn_line_indices lines) [] w1) as H.
  destruct (for_each _ _ _ w1) as [[functions| |] w2]; try discriminate.
  cbn [fst] in H. destruct (existsb _ _); [discriminate|].
  injection H as ->. cbn. intros [= <- _]. exists lines. reflexivity.
Qed.

Lemma resolve_module_name (analyze : Path -> M Module_) (path : Path)
      (w w' : world) (named : string * list Module_) :
  resolve_module analyze path w = (Ret named, w') ->
  fst named = (if String.eqb (stem path) "mod" then stem (parent path) else stem path)
  /\ (String.eqb (stem path) "mod" = false -> snd named = []).
Proof.
  unfold resolve_module.
  destruct (String.eqb (stem path) "mod").
  - unfold Path_truth, bind, path_glob_rs.
    destruct (for_each _ _ _ w) as [[subs| |] w1]; try discriminate.
    intros [= <- _]. split; [reflexivity | discriminate].
  - intros [= <- _]. split; reflexivity.
Qed.

(** X5. Every Function of a Module that the analysis returns, for an
    aggregator or not, has a name made of word characters that does not end
    with an underscore, no return description, and arguments whose names
    are distinct identifiers, each without a description. *)
Theorem returned_functions_are_well_formed :
  forall fuel path w m w',
    analyze_rust_module fuel path w = (Ret m, w') ->
    Forall well_formed_function (m_functions m).
Proof.
  intros fuel path w m w' H.
  destruct (analyze_returns_parts _ _ _ _ _ H)
    as (fuel' & named & w1 & w2 & _ & _ & _ & Hscan).
  destruct (scan_module_functions _ _ _ _ _ _ Hscan) as (lines & ->).
  apply scanned_well_formed.
Qed.

Lemma returned_functions_are_well_formed_witness :
  Forall well_formed_function
         [mkFunction "parse" "Parses the input." [("input", None); ("mode", None)] None].
Proof.
  exact (returned_functions_are_well_formed 1 lib_rs (lib_world values_lines) _ _ eq_refl).
Defined.

(** X6. A Module that the analysis returns carries the analysed path; it is
    named after the stem of the parent directory when the stem of the path
    is [mod] and after the stem of the path otherwise, and in the second
    case it has no submodule. *)
Theorem returned_module_fields :
  forall fuel path w m w',
    analyze_rust_module fuel path w = (Ret m, w') ->
    m_path m = path /\
    m_name m = (if String.eqb (stem path) "mod"
                then stem (parent path) else stem path) /\
    (String.eqb (stem path) "mod" = false -> m_submodules m = []).
Proof.
  intros fuel path w m w' H.
  destruct (analyze_returns_parts _ _ _ _ _ H)
    as (fuel' & named & w1 & w2 & _ & Hres & _ & Hscan).
  destruct (scan_module_fields _ _ _ _ _ _ Hscan) as (Hp & Hn & Hs).
  destruct (resolve_module_name _ _ _ _ _ Hres) as (Hname & Hsubs).
  split; [exact Hp|]. split; [congruence|].
  intros Hleaf. rewrite Hs. now apply Hsubs.
Qed.

Lemma returned_module_fields_witness :
  exists m w',
    analyze_rust_module 2 (rel ["mod.rs"])
      (world_of [(rel ["mod.rs"], text_of ["//! Top."])]) = (Ret m, w') /\
    m_path m = rel ["mod.rs"] /\ m_name m = "".
Proof.
  destruct (analyze_rust_module 2 (rel ["mod.rs"])
              (world_of [(rel ["mod.rs"], text_of ["//! Top."])])) as [r w'] eqn:E.
  assert (Hr : r = fst (analyze_rust_module 2 (rel ["mod.rs"])
                          (world_of [(rel ["mod.rs"], text_of ["//! Top."])])))
    by (now rewrite E).
  vm_compute in Hr. subst r. eexists _, w'. split; [reflexivity|].
  destruct (returned_module_fields _ _ _ _ _ E) as (H1 & H2 & _).
  split; [exact H1 | exact H2].
Defined.

(** ** The analysis changes no file *)

Lemma writes_nothing_pure {A} (r : result A) :
  writes_nothing (fun w => (r, w)).
Proof.
  intros w. split; [reflexivity|]. exists []. cbn. now rewrite app_nil_r.
Qed.

Lemma writes_nothing_emit (e : event) :
  is_write e = false -> writes_nothing (emit e).
Proof.
  intros He w. split; [reflexivity|]. exists [e]. cbn. now rewrite He.
Qed.

Lemma writes_nothing_bind {A B} (m : M A) (k : A -> M B) :
  writes_nothing m -> (forall a, writes_nothing (k a)) -> writes_nothing (bind m k).
Proof.
  intros Hm Hk w. destruct (Hm w) as (Hfs & evs & Htr & Hev). unfold bind.
  destruct (m w) as [[a| |] w1]; cbn [fst snd] in *;
    try (split; [exact Hfs | exists evs; auto]).
  destruct (Hk a w1) as (Hfs2 & evs2 & Htr2 & Hev2).
  split; [congruence|]. exists (evs ++ evs2)%list.
  rewrite Htr2, Htr, app_assoc, existsb_app, Hev, Hev2. auto.
Qed.

Lemma writes_nothing_for_each {A S} (body : A -> S -> M S) :
  (forall x s, writes_nothing (body x s)) ->
  forall xs s, writes_nothing (for_each body xs s).
Proof.
  intros Hb xs. induction xs as [|x xs IH]; intros s; cbn [for_each].
  - apply (writes_nothing_pure (Ret s)).
  - apply writes_nothing_bind; [apply Hb | intros s'; apply IH].
Qed.

Lemma writes_nothing_f_readlines (p : Path) : writes_nothing (f_readlines p).
Proof.
  intros w. unfold f_readlines.
  destruct (node_at (fs w) p) as [[text|]|]; cbn [fst snd fs trace].
  - split; [reflexivity|]. exists [ReadAll p]. auto.
  - split; [reflexivity|]. exists []. now rewrite app_nil_r.
  - split; [reflexivity|]. exists []. now rewrite app_nil_r.
Qed.

Lemma writes_nothing_with_open {A} (p : Path) (mode : string) (body : M A) :
  writes_nothing body -> writes_nothing (with_open p mode body).
Proof.
  intros Hb w. unfold with_open.
  destruct (node_at (fs w) p) as [[text|]|]; cbn [fst snd];
    try (split; [reflexivity | exists []; now rewrite app_nil_r]).
  assert (Hm : writes_nothing (emit (Opened p mode) ;; body))
    by (apply writes_nothing_bind; [now apply writes_nothing_emit | intros _; exact Hb]).
  destruct (Hm w) as (Hfs & evs & Htr & Hev).
  destruct ((emit (Opened p mode) ;; body) w) as [r w1]. cbn [fst snd fs trace] in *.
  split; [exact Hfs|]. exists (evs ++ [Closed p])%list.
  rewrite Htr, app_assoc, existsb_app, Hev. auto.
Qed.

Lemma writes_nothing_scan_function (fuel : nat) (lines : list string) (idx : nat)
      (functions : list Function_) :
  writes_nothing (scan_function fuel lines idx functions).
Proof.
  intros w. rewrite scan_function_run. cbv zeta.
  destruct (Py.re_search_self (nth idx lines ""));
    [split; [reflexivity | exists []; now rewrite app_nil_r]|].
  destruct (Py.re_match_pub_fn (nth idx lines "")) as [raw|];
    [|split; [reflexivity | eexists [_]; split; reflexivity]].
  destruct (Py.contains "{" (nth idx lines ""));
    [|split; [reflexivity | exists []; now rewrite app_nil_r]].
  destruct fuel;
    [split; [reflexivity | exists []; now rewrite app_nil_r]|].
  split; [reflexivity | eexists [_]; split; reflexivity].
Qed.

Lemma writes_nothing_describe_with (analyze : Path -> M Module_) (src : list src_arg) :
  (forall p, writes_nothing (analyze p)) -> writes_nothing (describe_with analyze src).
Proof.
  intros Ha. unfold describe_with.
  destruct (concat _) as [|p sources]; [apply (writes_nothing_pure (Ret []))|].
  apply writes_nothing_for_each. intros source yielded.
  apply writes_nothing_bind; [intros w; apply (writes_nothing_pure (Ret _))|].
  intros filenames. apply writes_nothing_for_each. intros filename yielded'.
  apply writes_nothing_bind; [apply Ha|]. intros module.
  destruct (Module_truth module); apply (writes_nothing_pure (Ret _)).
Qed.

Lemma writes_nothing_analyze_rust_module (fuel : nat) :
  forall path, writes_nothing (analyze_rust_module fuel path).
Proof.
  induction fuel as [|fuel IH]; intros path.
  - apply (writes_nothing_pure OutOfFuel).
  - rewrite analyze_rust_module_parts.
    apply writes_nothing_bind; [now apply writes_nothing_emit|]. intros _.
    apply writes_nothing_bind.
    + unfold resolve_module.
      destruct (String.eqb (stem path) "mod"); [|apply (writes_nothing_pure (Ret _))].
      destruct (Path_truth (parent path)); [|apply (writes_nothing_pure (Ret _))].
      apply writes_nothing_bind; [intros w; apply (writes_nothing_pure (Ret _))|].
      intros siblings.
      apply writes_nothing_bind; [|intros; apply (writes_nothing_pure (Ret _))].
      apply writes_nothing_for_each. intros sp subs.
      destruct (negb _); [|apply (writes_nothing_pure (Ret _))].
      apply writes_nothing_bind; [|intros; apply (writes_nothing_pure (Ret _))].
      apply writes_nothing_describe_with. exact IH.
    + intros named. unfold scan_module.
      apply writes_nothing_bind;
        [apply writes_nothing_with_open, writes_nothing_f_readlines|].
      intros lines.
      apply writes_nothing_bind;
        [apply writes_nothing_for_each; intros; apply writes_nothing_scan_function|].
      intros functions.
      apply writes_nothing_bind;
        [now apply writes_nothing_emit | intros; apply (writes_nothing_pure (Ret _))].
Qed.

Lemma analysis_writes_nothing_aux (fuel : nat) :
  (forall path, writes_nothing (analyze_rust_module fuel path)) /\
  (forall src, writes_nothing (describe_rust_api fuel src)).
Proof.
  split.
  - apply writes_nothing_analyze_rust_module.
  - intros src. apply writes_nothing_describe_with.
    apply writes_nothing_analyze_rust_module.
Qed.

(** X7. However it ends (a result, an error, no outcome within the fuel),
    neither the analysis of a file nor [describe_rust_api] changes the file
    system, and the events they add to the trace hold no truncation and no
    write. *)
Theorem analysis_writes_nothing :
  forall fuel,
    (forall path, writes_nothing (analyze_rust_module fuel path)) /\
    (forall src, writes_nothing (describe_rust_api fuel src)).
Proof.
  intros fuel. split.
  - apply writes_nothing_analyze_rust_module.
  - intros src. apply writes_nothing_describe_with.
    apply writes_nothing_analyze_rust_module.
Qed.

(** ** describe_rust_api *)

Lemma concat_src_paths (ps : list Path) :
  concat (map (fun s => match s with SrcPath p => [p] | SrcList l => l end)
              (map SrcPath ps)) = ps.
Proof. induction ps as [|p ps IH]; cbn; [reflexivity | now rewrite IH]. Qed.

Lemma describe_step (analyze : Path -> M Module_) (p : Path)
      (acc : list Module_) (w w1 : world) (m : Module_) :
  glob (fs w) p = [p] ->
  analyze p w = (Ret m, w1) ->
  (filenames <- glob2_glob p ;;
   for_each (fun filename yielded =>
               module <- analyze filename ;;
               if Module_truth module then ret (yielded ++ [module])%list
               else ret yielded)
            filenames acc) w
  = (Ret (acc ++ [m])%list, w1).
Proof.
  intros Hglob Ha. unfold bind at 1, glob2_glob. rewrite Hglob.
  cbn [for_each]. unfold bind. rewrite Ha. reflexivity.
Qed.

Lemma describe_loop_returns (analyze : Path -> M Module_) :
  (forall p, reads_only (analyze p)) ->
  forall (w0 : world) (ps : list Path) (ms : list Module_),
    Forall (fun p => glob (fs w0) p = [p]) ps ->
    Forall2 (fun p m => fst (analyze p w0) = Ret m) ps ms ->
    forall acc w, fs w = fs w0 ->
    exists w',
      for_each (fun source yielded =>
                  filenames <- glob2_glob source ;;
                  for_each (fun filename yielded =>
                              module <- analyze filename ;;
                              if Module_truth module
                              then ret (yielded ++ [module])%list
                              else ret yielded)
                           filenames yielded)
               ps acc w
      = (Ret (acc ++ ms)%list, w') /\ fs w' = fs w0.
Proof.
  intros Hro w0 ps. induction ps as [|p ps IH]; intros ms Hglob Hms acc w Hw;
    cbn [for_each].
  - inversion Hms; subst. exists w. rewrite app_nil_r. split; [reflexivity | exact Hw].
  - inversion Hglob as [|? ? Hgp Hglob']; subst.
    inversion Hms as [|? m ? ms' Hm Hms']; subst.
    destruct (reads_only_returns (analyze p) w0 w m (Hro p) Hm Hw) as (w1 & Ha & Hw1).
    destruct (IH ms' Hglob' Hms' (acc ++ [m])%list w1 Hw1) as (w' & E & Hw').
    exists w'. split; [|exact Hw'].
    unfold bind at 1.
    rewrite (describe_step analyze p acc w w1 m); [|now rewrite Hw | exact Ha].
    rewrite E, <- app_assoc. reflexivity.
Qed.

(** X8. Given paths each of which is what its own glob yields and whose
    analysis returns, [describe_rust_api] returns the Modules of those
    paths, one for each, in the order of the arguments, and leaves the file
    system as it was. *)
Theorem describe_rust_api_one_module_per_file :
  forall fuel w ps ms,
    Forall (fun p => glob (fs w) p = [p]) ps ->
    Forall2 (fun p m => fst (analyze_rust_module fuel p w) = Ret m) ps ms ->
    exists w',
      describe_rust_api fuel (map SrcPath ps) w = (Ret ms, w') /\ fs w' = fs w.
Proof.
  intros fuel w ps ms Hglob Hms.
  unfold describe_rust_api, describe_with. rewrite concat_src_paths.
  destruct ps as [|p ps].
  - inversion Hms; subst. exists w. split; reflexivity.
  - apply (describe_loop_returns (analyze_rust_module fuel)
             (reads_only_analyze_rust_module fuel) w (p :: ps) ms Hglob Hms [] w eq_refl).
Qed.

Lemma describe_rust_api_one_module_per_file_witness :
  exists w',
    describe_rust_api 1
      (map SrcPath [rel ["api"; "math.rs"]; rel ["api"; "strings.rs"]])
      (world_of api_files)
    = (Ret (rev api_submodules), w') /\ fs w' = fs (world_of api_files).
Proof.
  apply (describe_rust_api_one_module_per_file 1 (world_of api_files)
           [rel ["api"; "math.rs"]; rel ["api"; "strings.rs"]] (rev api_submodules));
    repeat constructor.
Defined.

(** X9. When no argument of [describe_rust_api] matches a file (each glob
    is empty, or there is no argument at all), the result is empty and the
    world is untouched: no file is opened and nothing is logged. *)
Theorem describe_rust_api_without_match :
  forall fuel w src,
    Forall (fun p => glob (fs w) p = [])
           (concat (map (fun s => match s with SrcPath p => [p] | SrcList l => l end)
                        src)) ->
    describe_rust_api fuel src w = (Ret [], w).
Proof.
  intros fuel w src Hglob. unfold describe_rust_api, describe_with.
  destruct (concat _) as [|p sources] eqn:E; [reflexivity|].
  generalize (@nil Module_). revert Hglob. generalize (p :: sources).
  induction l as [|q l IH]; intros Hglob acc; cbn [for_each]; [reflexivity|].
  inversion Hglob as [|? ? Hq Hl]; subst.
  unfold bind at 1. unfold bind at 1, glob2_glob. rewrite Hq. cbn [for_each].
  unfold ret at 1. apply IH. exact Hl.
Qed.

Lemma describe_rust_api_without_match_witness :
  describe_rust_api 1 [SrcPath lib_rs; SrcList [rel ["api"; "none.rs"]]]
                    (world_of api_files)
  = (Ret [], world_of api_files).
Proof.
  apply (describe_rust_api_without_match 1 (world_of api_files)).
  repeat constructor.
Defined.

(** ** Descriptions *)

Lemma range_down_succ (n : nat) : range_down (S n) 0 = S n :: range_down n 0.
Proof.
  unfold range_down. rewrite !Nat.sub_0_r, seq_S, rev_app_distr. reflexivity.
Qed.

(** X10. A declaration on one of the first two lines of the file, or
    directly below a line that is not a doc comment, gets the empty
    description. *)
Theorem docstring_empty_without_comment_above :
  forall lines idx,
    idx <= 1 \/
    Py.startswith "///" (Py.lstrip (nth (idx - 1) lines "")) = false ->
    extract_docstring lines idx = "".
Proof.
  intros lines idx H. unfold extract_docstring.
  destruct (idx - 1) as [|n] eqn:E.
  - reflexivity.
  - destruct H as [H | H]; [lia|].
    rewrite range_down_succ. cbn [docstring_loop]. now rewrite H.
Qed.

Lemma docstring_empty_without_comment_above_witness :
  extract_docstring ["/// Lost."; "pub fn first() {"; ""; "pub fn second() {"] 1 = "" /\
  extract_docstring ["/// Lost."; "pub fn first() {"; ""; "pub fn second() {"] 3 = "".
Proof.
  split.
  - apply docstring_empty_without_comment_above. left. apply le_n.
  - apply docstring_empty_without_comment_above. right. reflexivity.
Defined.

(** ** Lines of a text *)

Lemma concat_cons (x : string) (l : list string) :
  String.concat "" (x :: l) = x ++ String.concat "" l.
Proof.
  destruct l as [|y l]; cbn [String.concat]; [now rewrite append_nil_r | reflexivity].
Qed.

Lemma concat_readlines (s : string) : String.concat "" (Py.readlines s) = s.
Proof.
  induction s as [|c s IH]; cbn [Py.readlines]; [reflexivity|].
  destruct (Ascii.eqb c Py.LF).
  - rewrite concat_cons, IH. reflexivity.
  - destruct (Py.readlines s) as [|l ls].
    + cbn in *. now subst s.
    + rewrite concat_cons in *. cbn [append]. now rewrite IH.
Qed.

Lemma readlines_ok (s : string) : lines_ok (Py.readlines s).
Proof.
  induction s as [|c s IH]; cbn [Py.readlines]; [exact I|].
  destruct (Ascii.eqb c Py.LF) eqn:Hc.
  - cbn [lines_ok]. split; [|exact IH].
    exists "". split; [reflexivity|]. left.
    apply Ascii.eqb_eq in Hc. now subst c.
  - destruct (Py.readlines s) as [|l ls].
    + cbn [lines_ok]. split; [|exact I].
      exists (String c "").
      split; [unfold no_LF; cbn [all_chars]; now rewrite Hc|].
      right. repeat split. discriminate.
    + cbn [lines_ok] in *. destruct IH as ((body & Hno & Hl) & Hls).
      split; [|exact Hls].
      exists (String c body).
      split; [unfold no_LF in *; cbn [all_chars]; now rewrite Hc|].
      destruct Hl as [-> | (-> & Hne & ->)]; [left; reflexivity|].
      right. repeat split. discriminate.
Qed.

Lemma readlines_terminated (body t : string) :
  no_LF body = true ->
  Py.readlines (body ++ Py.linesep ++ t) = (body ++ Py.linesep) :: Py.readlines t.
Proof.
  induction body as [|c body IH]; intros Hno.
  - reflexivity.
  - unfold no_LF in *. cbn [all_chars] in Hno.
    apply andb_prop in Hno. destruct Hno as (Hc & Hno).
    apply negb_true_iff in Hc.
    cbn [append Py.readlines]. rewrite Hc.
    fold (Py.linesep ++ t). rewrite (IH Hno). reflexivity.
Qed.

Lemma readlines_unterminated (body : string) :
  no_LF body = true -> body <> "" -> Py.readlines body = [body].
Proof.
  induction body as [|c body IH]; intros Hno Hne; [now destruct Hne|].
  unfold no_LF in *. cbn [all_chars] in Hno.
  apply andb_prop in Hno. destruct Hno as (Hc & Hno).
  apply negb_true_iff in Hc. cbn [Py.readlines]. rewrite Hc.
  destruct body as [|d body]; [reflexivity|].
  rewrite (IH Hno); [reflexivity | discriminate].
Qed.

Lemma readlines_concat (l : list string) :
  lines_ok l -> Py.readlines (String.concat "" l) = l.
Proof.
  induction l as [|x l IH]; [reflexivity|].
  intros ((body & Hno & Hx) & Hl). rewrite concat_cons.
  destruct Hx as [-> | (-> & Hne & ->)].
  - rewrite append_assoc, (readlines_terminated _ _ Hno), (IH Hl). reflexivity.
  - cbn [String.concat]. rewrite append_nil_r.
    now apply readlines_unterminated.
Qed.

Lemma lines_ok_filter (p : string -> bool) (l : list string) :
  lines_ok l -> lines_ok (filter p l).
Proof.
  induction l as [|x l IH]; [auto|].
  intros ((body & Hno & Hx) & Hl). cbn [filter].
  destruct (p x); [|now apply IH].
  cbn [lines_ok]. split; [|now apply IH].
  exists body. split; [exact Hno|].
  destruct Hx as [-> | (-> & Hne & ->)]; [now left | right; auto].
Qed.

Lemma filter_idem {A} (p : A -> bool) (l : list A) :
  filter p (filter p l) = filter p l.
Proof.
  induction l as [|x l IH]; [reflexivity|]. cbn [filter].
  destruct (p x) eqn:E; [|exact IH]. cbn [filter]. now rewrite E, IH.
Qed.

Lemma filter_all {A} (p : A -> bool) (l : list A) :
  (forall x, In x l -> p x = true) -> filter p l = l.
Proof.
  induction l as [|x l IH]; intros H; [reflexivity|]. cbn [filter].
  rewrite (H x (or_introl eq_refl)), IH; [reflexivity|].
  intros y Hy. apply H. now right.
Qed.

(** ** scrub_html_comment_markers *)

Lemma scrub_run (p : Path) (w : world) (text : string) :
  node_at (fs w) p = Some (File text) ->
  let new := String.concat ""
               (filter (fun line => negb (is_marker_line line)) (Py.readlines text)) in
  scrub_html_comment_markers p w =
  (Ret tt,
   mkWorld (set_content p new (set_content p "" (fs w)))
           (((((trace w ++ [Opened p "r+t"]) ++ [ReadAll p]) ++ [Truncated p])
               ++ [Written p new]) ++ [Closed p])).
Proof.
  intros Hfile new. unfold scrub_html_comment_markers, with_open. rewrite Hfile.
  unfold bind, emit, f_readlines. cbn [fs trace]. rewrite Hfile. reflexivity.
Qed.

(** X11. On a regular file that holds no carriage return (so that text
    mode reads its characters as they are stored)
    [scrub_html_comment_markers] returns and rewrites the file so that its
    lines are the lines of the old file that are not marker lines, each as
    it was and in the same order; what is at any other path is left as it
    was. *)
Theorem scrub_keeps_the_other_lines :
  forall p w text,
    node_at (fs w) p = Some (File text) ->
    no_CR text = true ->
    let after := snd (scrub_html_comment_markers p w) in
    fst (scrub_html_comment_markers p w) = Ret tt /\
    (exists new,
        node_at (fs after) p = Some (File new) /\
        Py.readlines new =
        filter (fun line => negb (is_marker_line line)) (Py.readlines text)) /\
    (forall q, q <> p -> node_at (fs after) q = node_at (fs w) q).
Proof.
  intros p w text Hfile _. cbv zeta. rewrite (scrub_run p w text Hfile).
  cbn [fst snd fs node_at set_content]. rewrite Path_eqb_refl.
  split; [reflexivity|]. split.
  - eexists. split; [reflexivity|].
    apply readlines_concat, lines_ok_filter, readlines_ok.
  - intros q Hq. now rewrite (Path_eqb_neq _ _ Hq).
Qed.

Lemma scrub_keeps_the_other_lines_witness :
  exists new,
    node_at (fs (snd (scrub_html_comment_markers api_md
                        (world_of [(api_md, commented_page)])))) api_md
    = Some (File new) /\
    Py.readlines new =
    [ "# API" ++ Py.linesep;
      "See <!-- inline --> the list." ++ Py.linesep;
      "last line" ].
Proof.
  destruct (scrub_keeps_the_other_lines api_md (world_of [(api_md, commented_page)])
              commented_page eq_refl eq_refl) as (_ & (new & H1 & H2) & _).
  exists new. split; [exact H1 | exact H2].
Defined.

(** X12. Scrubbing is idempotent: a second run on the file the first one
    left writes the same content again. *)
Theorem scrub_is_idempotent :
  forall p w text,
    node_at (fs w) p = Some (File text) ->
    let once := snd (scrub_html_comment_markers p w) in
    let twice := snd (scrub_html_comment_markers p once) in
    fst (scrub_html_comment_markers p once) = Ret tt /\
    node_at (fs twice) p = node_at (fs once) p.
Proof.
  intros p w text Hfile. cbv zeta. rewrite (scrub_run p w text Hfile).
  cbn [snd].
  match goal with
  | |- context [scrub_html_comment_markers p ?W] =>
      assert (H1 : exists new, node_at (fs W) p = Some (File new) /\
                    new = String.concat ""
                            (filter (fun line => negb (is_marker_line line))
                                    (Py.readlines text)))
        by (eexists; cbn [fs node_at set_content]; rewrite Path_eqb_refl;
            split; reflexivity);
      destruct H1 as (new & Hnew & Enew);
      rewrite (scrub_run p W new Hnew)
  end.
  cbn [fst snd fs node_at set_content]. rewrite !Path_eqb_refl.
  split; [reflexivity|]. do 2 f_equal.
  rewrite Enew at 1.
  rewrite (readlines_concat _ (lines_ok_filter _ _ (readlines_ok text))).
  now rewrite filter_idem.
Qed.

Lemma scrub_is_idempotent_witness :
  node_at (fs (snd (scrub_html_comment_markers api_md
                      (snd (scrub_html_comment_markers api_md
                              (world_of [(api_md, commented_page)])))))) api_md
  = node_at (fs (snd (scrub_html_comment_markers api_md
                        (world_of [(api_md, commented_page)])))) api_md.
Proof.
  exact (proj2 (scrub_is_idempotent api_md (world_of [(api_md, commented_page)])
                  commented_page eq_refl)).
Defined.

(** X13. A file that holds no carriage return and has no marker line is
    written back character for character. *)
Theorem scrub_without_marker_lines :
  forall p w text,
    node_at (fs w) p = Some (File text) ->
    no_CR text = true ->
    (forall line, In line (Py.readlines text) -> is_marker_line line = false) ->
    node_at (fs (snd (scrub_html_comment_markers p w))) p = Some (File text).
Proof.
  intros p w text Hfile _ Hnone. rewrite (scrub_run p w text Hfile).
  cbn [snd fs node_at set_content]. rewrite Path_eqb_refl.
  rewrite filter_all; [now rewrite concat_readlines|].
  intros line Hline. now rewrite (Hnone line Hline).
Qed.

Lemma scrub_without_marker_lines_witness :
  node_at (fs (snd (scrub_html_comment_markers api_md
                      (world_of [(api_md, plain_page)])))) api_md
  = Some (File plain_page).
Proof.
  apply (scrub_without_marker_lines api_md (world_of [(api_md, plain_page)]) plain_page).
  - reflexivity.
  - reflexivity.
  - intros line [<- | []]. reflexivity.
Defined.

(** ** The documentation step of the build *)

Lemma docs_api_without_module_paths (render : Module_ -> string) (fuel : nat)
      (found : list Path) (w : world) :
  forallb is_root_mod_rs found = true ->
  docs_api render fuel found w =
  insert_api_docs render (ModGenerator []) api_md default_between w.
Proof.
  intros Hroot. unfold docs_api.
  assert (E : filter (fun m => negb (is_root_mod_rs m)) found = []).
  { induction found as [|p found IH]; [reflexivity|].
    cbn [forallb] in Hroot. apply andb_prop in Hroot. destruct Hroot as (Hp & Hrest).
    cbn [filter]. rewrite Hp. cbn [negb]. now apply IH. }
  rewrite E. reflexivity.
Qed.

(** X14. When the search finds no module file besides the root [mod.rs],
    the build step does not skip the page as a call with an empty list
    would: the page is opened, [ValueError] is raised when a marker is
    missing from it, and otherwise the region between the last lines
    holding the markers is replaced by an empty render. *)
Theorem docs_api_without_modules_still_rewrites :
  forall render fuel found w text,
    forallb is_root_mod_rs found = true ->
    node_at (fs w) api_md = Some (File text) ->
    let target_lines := map Py.strip (Py.readlines text) in
    (~ occurs_in (fst default_between) text \/ ~ occurs_in (snd default_between) text ->
     exists e, fst (docs_api render fuel found w) = Raise (ValueError e)) /\
    (forall b e,
        is_last (Py.contains (fst default_between)) target_lines b ->
        is_last (Py.contains (snd default_between)) target_lines e ->
        b <> e ->
        fst (docs_api render fuel found w) = Ret tt /\
        node_at (fs (snd (docs_api render fuel found w))) api_md =
        Some (File (Py.strip (Py.join Py.linesep (firstn (b + 1) target_lines))
                    ++ Py.linesep ++ "" ++ Py.linesep
                    ++ Py.strip (Py.join Py.linesep (skipn e target_lines))))).
Proof.
  intros render fuel found w text Hroot Hfile target_lines.
  rewrite (docs_api_without_module_paths render fuel found w Hroot). split.
  - intros Habs.
    destruct (insert_api_docs_raises_not_found render (ModGenerator []) api_md
                default_between w text eq_refl Hfile Habs) as (b & e & ->).
    eexists. reflexivity.
  - intros b e Hb He Hne.
    rewrite (insert_api_docs_writes render (ModGenerator []) api_md default_between
               w text eq_refl Hfile b e Hb He Hne).
    cbn [fst snd fs node_at set_content]. rewrite Path_eqb_refl.
    split; reflexivity.
Qed.

Lemma docs_api_without_modules_still_rewrites_witness :
  (exists e,
      fst (docs_api render_heading 0 [rel ["api"; "mod.rs"]]
             (world_of [(api_md, plain_page)])) = Raise (ValueError e)) /\
  node_at (fs (snd (docs_api render_heading 0 []
                      (world_of [(api_md, sample_page)])))) api_md
  = Some (File (Py.join Py.linesep
                  [ "Indented introduction";
                    "<!-- BEGIN AUTOGENERATED API DOCUMENTATION -->";
                    "";
                    "<!-- END AUTOGENERATED API DOCUMENTATION -->";
                    "Closing words" ])).
Proof.
  split.
  - apply (proj1 (docs_api_without_modules_still_rewrites
                    render_heading 0 [rel ["api"; "mod.rs"]]
                    (world_of [(api_md, plain_page)]) plain_page eq_refl eq_refl)).
    left. intros H. apply contains_occurs in H. vm_compute in H. discriminate.
  - apply (proj2 (docs_api_without_modules_still_rewrites
                    render_heading 0 [] (world_of [(api_md, sample_page)])
                    sample_page eq_refl eq_refl) 1 3).
    + apply is_last_of_last_index. reflexivity.
    + apply is_last_of_last_index. reflexivity.
    + discriminate.
Defined.


(** ** White space around the rewritten page *)

Lemma has_ink_app (a b : string) : has_ink (a ++ b) = has_ink a || has_ink b.
Proof. unfold has_ink. now rewrite all_chars_app, negb_andb. Qed.

Lemma has_ink_occurs (a s : string) :
  occurs_in a s -> has_ink a = true -> has_ink s = true.
Proof.
  intros (p & q & ->) Ha. rewrite !has_ink_app, Ha.
  now rewrite orb_true_r.
Qed.

Lemma has_ink_strip (s : string) : has_ink s = true -> has_ink (Py.strip s) = true.
Proof.
  intros Hs. unfold Py.strip, Py.rstrip, Py.lstrip, Py.lstrip_by.
  pose proof (span_app Py.is_space s) as Hsplit.
  pose proof (span_fst_all Py.is_space s) as Hall.
  destruct (Py.span Py.is_space s) as [a b]. cbn [fst snd] in *.
  rewrite Hsplit, has_ink_app in Hs. unfold has_ink at 1 in Hs.
  rewrite Hall in Hs. cbn [negb orb] in Hs.
  destruct (rstrip_by_split Py.is_space b) as (t & Ht & Htall).
  rewrite Ht, has_ink_app in Hs. unfold has_ink at 2 in Hs.
  rewrite Htall in Hs. cbn [negb] in Hs. now rewrite orb_false_r in Hs.
Qed.

Lemma string_snoc (s : string) :
  s <> "" -> exists r c, s = r ++ String c "".
Proof.
  induction s as [|c s IH]; intros Hne; [now destruct Hne|].
  destruct s as [|d s].
  - now exists "", c.
  - destruct IH as (r & e & Hr); [discriminate|].
    exists (String c r), e. cbn [append]. now rewrite Hr.
Qed.

Lemma lstrip_by_head (p : ascii -> bool) (s r : string) (c : ascii) :
  Py.lstrip_by p s = String c r -> p c = false.
Proof.
  unfold Py.lstrip_by. induction s as [|d s IH]; cbn [Py.span]; [discriminate|].
  destruct (p d) eqn:Hd.
  - destruct (Py.span p s) as [a b]. cbn [snd] in *. exact IH.
  - cbn [snd]. now intros [= <- _].
Qed.

Lemma rstrip_by_head (p : ascii -> bool) (s r : string) (c d : ascii) :
  Py.rstrip_by p (String c s) = String d r -> d = c.
Proof.
  cbn [Py.rstrip_by]. destruct (Py.rstrip_by p s).
  - destruct (p c); [discriminate | now intros [= <- _]].
  - now intros [= <- _].
Qed.

Lemma strip_ends (s : string) :
  has_ink s = true ->
  exists c1 r1 r2 c2,
    Py.strip s = String c1 r1 /\ Py.strip s = r2 ++ String c2 "" /\
    Py.is_space c1 = false /\ Py.is_space c2 = false.
Proof.
  intros Hs. pose proof (has_ink_strip s Hs) as Hink.
  destruct (Py.strip s) as [|c1 r1] eqn:E; [discriminate|].
  destruct (string_snoc (String c1 r1)) as (r2 & c2 & Hsnoc); [discriminate|].
  exists c1, r1, r2, c2. split; [reflexivity|]. split; [exact Hsnoc|].
  unfold Py.strip, Py.rstrip, Py.lstrip in E. split.
  - destruct (Py.lstrip_by Py.is_space s) as [|d x] eqn:El; [discriminate|].
    apply rstrip_by_head in E. subst d. eapply lstrip_by_head. exact El.
  - rewrite Hsnoc in E. eapply rstrip_by_last. exact E.
Qed.

Lemma in_join (sep x : string) (l : list string) :
  In x l -> occurs_in x (Py.join sep l).
Proof.
  induction l as [|y l IH]; [intros []|]. destruct l as [|z l].
  - intros [-> | []]. apply occurs_in_refl.
  - change (Py.join sep (y :: z :: l)) with (y ++ sep ++ Py.join sep (z :: l)).
    intros [-> | Hin].
    + apply occurs_in_app_l, occurs_in_refl.
    + apply occurs_in_app_r, occurs_in_app_r, IH, Hin.
Qed.

Lemma nth_in_firstn {A} (d : A) (l : list A) :
  forall b, b < length l -> In (nth b l d) (firstn (b + 1) l).
Proof.
  induction l as [|x l IH]; intros b Hb; [cbn in Hb; lia|].
  destruct b as [|b]; cbn; [now left|]. right. apply IH. cbn in Hb. lia.
Qed.

Lemma nth_in_skipn {A} (d : A) (l : list A) :
  forall e, e < length l -> In (nth e l d) (skipn e l).
Proof.
  induction l as [|x l IH]; intros e He; [cbn in He; lia|].
  destruct e as [|e]; cbn; [now left|]. apply IH. cbn in He. lia.
Qed.

Lemma has_ink_joined (marker : string) (l part : list string) (i : nat) :
  has_ink marker = true ->
  Py.contains marker (nth i l "") = true ->
  In (nth i l "") part ->
  has_ink (Py.join Py.linesep part) = true.
Proof.
  intros Hink Hc Hin. apply contains_occurs in Hc.
  eapply has_ink_occurs; [|exact Hink].
  eapply occurs_in_trans; [exact Hc | now apply in_join].
Qed.

(** X16. When both markers hold a character that is not white space, the
    page that [insert_api_docs] writes neither starts nor ends with white
    space: in particular it does not end with a line feed. *)
Theorem rewritten_page_has_no_outer_white_space :
  forall render modules into between w text b e,
    modules_truth modules = true ->
    node_at (fs w) into = Some (File text) ->
    is_last (Py.contains (fst between)) (map Py.strip (Py.readlines text)) b ->
    is_last (Py.contains (snd between)) (map Py.strip (Py.readlines text)) e ->
    b <> e ->
    has_ink (fst between) = true ->
    has_ink (snd between) = true ->
    exists new c1 r1 r2 c2,
      node_at (fs (snd (insert_api_docs render modules into between w))) into
      = Some (File new) /\
      new = String c1 r1 /\ new = r2 ++ String c2 "" /\
      Py.is_space c1 = false /\ Py.is_space c2 = false.
Proof.
  intros render modules into between w text b e Ht Hf Hb He Hne Hib Hie.
  rewrite (insert_api_docs_writes render modules into between w text Ht Hf b e Hb He Hne).
  cbn [snd fs node_at set_content]. rewrite Path_eqb_refl.
  set (ls := map Py.strip (Py.readlines text)) in *.
  destruct Hb as (Hblt & Hbc & _). destruct He as (Helt & Hec & _).
  destruct (strip_ends (Py.join Py.linesep (firstn (b + 1) ls)))
    as (c1 & r1 & _ & _ & Hhead & _ & Hc1 & _).
  { eapply has_ink_joined; [exact Hib | exact Hbc | now apply nth_in_firstn]. }
  destruct (strip_ends (Py.join Py.linesep (skipn e ls)))
    as (_ & _ & r2 & c2 & _ & Htail & _ & Hc2).
  { eapply has_ink_joined; [exact Hie | exact Hec | now apply nth_in_skipn]. }
  unfold target_content_of.
  change (Py.join Py.linesep [?a; ?d; ?c]) with (a ++ Py.linesep ++ d ++ Py.linesep ++ c).
  eexists _, c1, _, _, c2. split; [reflexivity|].
  split; [rewrite Hhead; reflexivity|].
  split; [rewrite Htail, <- !append_assoc; reflexivity|].
  split; assumption.
Qed.

Lemma rewritten_page_has_no_outer_white_space_witness :
  exists new c1 r1 r2 c2,
    node_at (fs (snd (insert_api_docs render_heading (ModList [sample_module]) api_md
                        default_between (world_of [(api_md, sample_page)])))) api_md
    = Some (File new) /\
    new = String c1 r1 /\ new = r2 ++ String c2 "" /\
    Py.is_space c1 = false /\ Py.is_space c2 = false.
Proof.
  apply (rewritten_page_has_no_outer_white_space
           render_heading (ModList [sample_module]) api_md default_between
           (world_of [(api_md, sample_page)]) sample_page 1 3).
  - reflexivity.
  - reflexivity.
  - apply is_last_of_last_index. reflexivity.
  - apply is_last_of_last_index. reflexivity.
  - discriminate.
  - reflexivity.
  - reflexivity.
Defined.

(** ** The patterns of .docsignore *)

Lemma lstrip_by_cons (p : ascii -> bool) (c : ascii) (s : string) :
  Py.lstrip_by p (String c s) = if p c then Py.lstrip_by p s else String c s.
Proof.
  unfold Py.lstrip_by. cbn [Py.span]. destruct (p c); [|reflexivity].
  now destruct (Py.span p s).
Qed.

Lemma rstrip_by_idem (p : ascii -> bool) (s : string) :
  Py.rstrip_by p (Py.rstrip_by p s) = Py.rstrip_by p s.
Proof.
  induction s as [|c s IH]; [reflexivity|]. cbn [Py.rstrip_by].
  destruct (Py.rstrip_by p s) as [|d r] eqn:E.
  - destruct (p c) eqn:Hc; [reflexivity|]. cbn [Py.rstrip_by]. now rewrite Hc.
  - change (Py.rstrip_by p (String c (String d r)))
      with (match Py.rstrip_by p (String d r) with
            | "" => if p c then "" else String c ""
            | r' => String c r'
            end).
    now rewrite IH.
Qed.

Lemma strip_sides_commute (p : ascii -> bool) (s : string) :
  Py.lstrip_by p (Py.rstrip_by p s) = Py.rstrip_by p (Py.lstrip_by p s).
Proof.
  induction s as [|c s IH]; [reflexivity|].
  rewrite (lstrip_by_cons p c s). destruct (p c) eqn:Hc.
  - cbn [Py.rstrip_by]. destruct (Py.rstrip_by p s) as [|d r] eqn:E.
    + rewrite Hc. now rewrite <- IH.
    + rewrite lstrip_by_cons, Hc. exact IH.
  - cbn [Py.rstrip_by]. destruct (Py.rstrip_by p s) as [|d r].
    + rewrite Hc. now rewrite lstrip_by_cons, Hc.
    + now rewrite lstrip_by_cons, Hc.
Qed.

(** X17. The patterns read from [.docsignore] are the lines that are
    neither blank nor comments, in order, without their trailing white
    space; after that trimming none is empty, none is a comment and none
    ends with white space, and leading white space is kept. *)
Theorem docsignore_patterns_are_clean :
  forall lines,
    Forall (fun pat =>
              Py.rstrip pat = pat /\
              Py.strip pat <> "" /\
              Py.startswith "#" (Py.lstrip pat) = false /\
              exists line, In line lines /\ pat = Py.rstrip line /\
                           Py.lstrip pat = Py.strip line)
           (docsignore_patterns lines).
Proof.
  intros lines. apply Forall_forall. intros pat Hpat.
  unfold docsignore_patterns in Hpat. apply in_map_iff in Hpat.
  destruct Hpat as (line & <- & Hline). apply filter_In in Hline.
  destruct Hline as (Hin & Hcond). apply andb_prop in Hcond.
  destruct Hcond as (Hblank & Hcomment).
  apply negb_true_iff in Hblank, Hcomment. apply String.eqb_neq in Hblank.
  assert (Hstrip : Py.lstrip (Py.rstrip line) = Py.strip line)
    by (unfold Py.strip, Py.lstrip, Py.rstrip; apply strip_sides_commute).
  split; [apply rstrip_by_idem|]. split; [|split].
  - unfold Py.strip at 1. rewrite Hstrip. unfold Py.strip, Py.rstrip.
    now rewrite rstrip_by_idem.
  - rewrite Hstrip. unfold Py.strip, Py.startswith.
    destruct (String.prefix "#" (Py.rstrip (Py.lstrip line))) eqn:E; [|reflexivity].
    apply prefix_app in E. destruct E as (u & Hu).
    destruct (rstrip_by_prefix Py.is_space (Py.lstrip line)) as (t & Ht).
    fold (Py.rstrip (Py.lstrip line)) in Ht. rewrite Hu, append_assoc in Ht.
    assert (String.prefix "#" (Py.lstrip line) = true)
      by (apply prefix_app; now exists (u ++ t)).
    unfold Py.startswith in Hcomment. congruence.
  - exists line. auto.
Qed.

(** ** Descriptions in closed form *)

Lemma docstring_loop_run (lines : list string) (a k : nat) :
  1 <= a ->
  (forall j, a <= j -> j < a + k -> is_doc_line (nth j lines "") = true) ->
  (a = 1 \/ is_doc_line (nth (a - 1) lines "") = false) ->
  docstring_loop lines (range_down (a + k - 1) 0) =
  map (fun j => doc_text (nth j lines "")) (rev (seq a k)).
Proof.
  intros Ha Hdoc Hstop. induction k as [|k IH].
  - rewrite Nat.add_0_r. cbn [seq rev map].
    destruct Hstop as [-> | Hstop]; [reflexivity|].
    destruct (a - 1) as [|n] eqn:E; [reflexivity|].
    rewrite range_down_succ. cbn [docstring_loop].
    unfold is_doc_line in Hstop. now rewrite Hstop.
  - replace (a + S k - 1) with (S (a + k - 1)) by lia.
    rewrite range_down_succ. cbn [docstring_loop].
    replace (S (a + k - 1)) with (a + k) by lia.
    pose proof (Hdoc (a + k) ltac:(lia) ltac:(lia)) as Hd.
    unfold is_doc_line in Hd. rewrite Hd. cbn [negb].
    rewrite seq_S, rev_app_distr. cbn [rev app map].
    rewrite IH; [reflexivity|]. intros j H1 H2. apply Hdoc; lia.
Qed.

(** X18. When the [k] lines directly above a declaration, none of them
    line 0, are doc comments and the line above them is not (or they start
    at line 1), the description is made of the texts of those [k] lines in
    source order, joined without any separator. *)
Theorem docstring_is_the_run_above :
  forall lines a k,
    1 <= a ->
    (forall j, a <= j -> j < a + k -> is_doc_line (nth j lines "") = true) ->
    (a = 1 \/ is_doc_line (nth (a - 1) lines "") = false) ->
    extract_docstring lines (a + k) =
    String.concat "" (map (fun j => doc_text (nth j lines "")) (seq a k)).
Proof.
  intros lines a k Ha Hdoc Hstop. unfold extract_docstring.
  rewrite (docstring_loop_run lines a k Ha Hdoc Hstop).
  rewrite <- map_rev, rev_involutive.
  generalize (map (fun j => doc_text (nth j lines "")) (seq a k)).
  induction l as [|x [|y l] IH]; [reflexivity | reflexivity|].
  change (Py.join "" (x :: y :: l)) with (x ++ "" ++ Py.join "" (y :: l)).
  rewrite IH. reflexivity.
Qed.

Lemma docstring_is_the_run_above_witness :
  extract_docstring
    [ "/// Not read."; "/// Adds"; "/// two numbers."; "pub fn add(a: i32, b: i32) {" ] 3
  = "Addstwo numbers.".
Proof.
  apply (docstring_is_the_run_above
           [ "/// Not read."; "/// Adds"; "/// two numbers.";
             "pub fn add(a: i32, b: i32) {" ] 1 2).
  - apply le_n.
  - intros [|[|[|j]]] H1 H2; try reflexivity; exfalso; lia.
  - now left.
Defined.

(** ** What any returned Module holds *)

Lemma reads_only_resolve_module (analyze : Path -> M Module_) (path : Path) :
  (forall p, reads_only (analyze p)) -> reads_only (resolve_module analyze path).
Proof.
  intros Ha. unfold resolve_module.
  destruct (String.eqb (stem path) "mod"); [|apply reads_only_ret].
  destruct (Path_truth (parent path)); [|apply reads_only_ret].
  apply reads_only_bind; [apply reads_only_path_glob_rs|]. intros siblings.
  apply reads_only_bind; [|intros; apply reads_only_ret].
  apply reads_only_for_each. intros sp subs.
  destruct (negb _); [|apply reads_only_ret].
  apply reads_only_bind; [|intros; apply reads_only_ret].
  now apply reads_only_describe_with.
Qed.

(** X19. Whatever the path, a Module that the analysis returns for a
    readable file has the leading [//!] lines of that file as description
    and, as functions, those of its declaration lines that are not methods
    and match the name pattern, in source order. *)
Theorem returned_module_content :
  forall fuel path w m w' text,
    analyze_rust_module fuel path w = (Ret m, w') ->
    node_at (fs w) path = Some (File text) ->
    m_description m = module_docstring (Py.readlines text) /\
    m_functions m = flat_map (scanned (Py.readlines text))
                             (pub_fn_line_indices (Py.readlines text)).
Proof.
  intros fuel path w m w' text Hrun Hfile.
  destruct (analyze_returns_parts _ _ _ _ _ Hrun)
    as (fuel' & named & w1 & w2 & _ & Hres & Hw1 & Hscan).
  assert (Hw2 : fs w2 = fs w1).
  { destruct (reads_only_resolve_module (analyze_rust_module fuel') path
                (reads_only_analyze_rust_module fuel') w1) as (H & _).
    now rewrite Hres in H. }
  assert (Hfile2 : node_at (fs w2) path = Some (File text)) by congruence.
  pose proof (scan_module_run fuel' path named w2 text Hfile2) as H.
  rewrite Hscan in H. cbn [fst] in H.
  destruct (existsb _ _); [discriminate|].
  injection H as ->. split; reflexivity.
Qed.

Lemma returned_module_content_witness :
  exists m w',
    analyze_rust_module 2 api_mod_rs (world_of api_files) = (Ret m, w') /\
    m_description m = "Expression API." /\ m_functions m = [].
Proof.
  destruct (analyze_rust_module 2 api_mod_rs (world_of api_files)) as [r w'] eqn:E.
  assert (Hr : r = fst (analyze_rust_module 2 api_mod_rs (world_of api_files)))
    by (now rewrite E).
  vm_compute in Hr. subst r. eexists _, w'. split; [reflexivity|].
  exact (returned_module_content 2 api_mod_rs (world_of api_files) _ w'
           (text_of ["//! Expression API."]) E eq_refl).
Defined.

(** ** insert_api_docs and the other files *)

Lemma insert_api_docs_frame (render : Module_ -> string) (modules : py_modules)
      (into : Path) (between : string * string) (w : world) :
  let outcome := insert_api_docs render modules into between w in
  fst outcome <> OutOfFuel /\
  (forall q, q <> into -> node_at (fs (snd outcome)) q = node_at (fs w) q) /\
  listdir (fs (snd outcome)) = listdir (fs w) /\
  (forall e, fst outcome = Raise e -> fs (snd outcome) = fs w).
Proof.
  cbv zeta.
  assert (Hsame : forall (r : result unit) (tr : list event),
             r <> OutOfFuel ->
             fst (r, mkWorld (fs w) tr) <> OutOfFuel /\
             (forall q, q <> into ->
                        node_at (fs (snd (r, mkWorld (fs w) tr))) q = node_at (fs w) q) /\
             listdir (fs (snd (r, mkWorld (fs w) tr))) = listdir (fs w) /\
             (forall e, fst (r, mkWorld (fs w) tr) = Raise e ->
                        fs (snd (r, mkWorld (fs w) tr)) = fs w))
    by (intros r tr Hr; cbn [fst snd fs]; auto).
  destruct (modules_truth modules) eqn:Ht.
  - destruct (node_at (fs w) into) as [[text|]|] eqn:Hf.
    + rewrite (insert_api_docs_run render modules into between w text Ht Hf).
      destruct (find_markers _ _ _) as [[b|] [e|]];
        try (apply Hsame; discriminate).
      destruct (Nat.eqb b e); [apply Hsame; discriminate|].
      cbn [fst snd fs]. split; [discriminate|]. split; [|split].
      * intros q Hq. cbn [node_at set_content]. now rewrite (Path_eqb_neq _ _ Hq).
      * reflexivity.
      * intros e0 He0. discriminate He0.
    + unfold insert_api_docs. rewrite Ht. cbn [negb]. unfold with_open. rewrite Hf.
      destruct w as [f tr]. apply (Hsame (Raise (IOError into)) tr). discriminate.
    + unfold insert_api_docs. rewrite Ht. cbn [negb]. unfold with_open. rewrite Hf.
      destruct w as [f tr]. apply (Hsame (Raise (IOError into)) tr). discriminate.
  - unfold insert_api_docs. rewrite Ht. cbn [negb].
    destruct w as [f tr]. apply (Hsame (Ret tt) tr). discriminate.
Qed.

(** X20. Whatever the outcome of [insert_api_docs] on modules that are
    already evaluated, what is at any path other than the target is as it
    was, and when it raises an error the whole file system is as it was. The
    same holds of the build step, where the generator of
    [describe_rust_api] is run inside the call and need not end: whatever
    the outcome, no outcome included, nothing but [./docs/api.md] changes,
    and unless the step returns nothing changes at all. *)
Theorem insert_api_docs_touches_only_the_target :
  (forall render modules into between w,
      let outcome := insert_api_docs render modules into between w in
      (forall q, q <> into -> node_at (fs (snd outcome)) q = node_at (fs w) q) /\
      listdir (fs (snd outcome)) = listdir (fs w) /\
      (forall e, fst outcome = Raise e -> fs (snd outcome) = fs w)) /\
  (forall render fuel found w,
      let outcome := docs_api render fuel found w in
      (forall q, q <> api_md -> node_at (fs (snd outcome)) q = node_at (fs w) q) /\
      listdir (fs (snd outcome)) = listdir (fs w) /\
      (fst outcome <> Ret tt -> fs (snd outcome) = fs w)).
Proof.
  split.
  - intros render modules into between w. cbv zeta.
    destruct (insert_api_docs_frame render modules into between w)
      as (_ & H1 & H2 & H3).
    auto.
  - intros render fuel found w. cbv zeta. unfold docs_api, bind.
    destruct (proj2 (analysis_writes_nothing_aux fuel)
                (map SrcPath (filter (fun m => negb (is_root_mod_rs m)) found)) w)
      as (Hfs & _).
    destruct (describe_rust_api fuel _ w) as [[ms| |] w1]; cbn [fst snd] in *;
      [|split; [|split]; intros; now rewrite Hfs ..].
    destruct (insert_api_docs_frame render (ModGenerator ms) api_md default_between w1)
      as (Hend & H1 & H2 & H3).
    rewrite <- Hfs. split; [exact H1|]. split; [exact H2|].
    intros Hne.
    destruct (fst (insert_api_docs render (ModGenerator ms) api_md default_between w1))
      as [[]|e|] eqn:E.
    + now destruct Hne.
    + now apply (H3 e).
    + now destruct Hend.
Qed.

(** ** Stripping twice *)

Lemma rstrip_by_all (p : ascii -> bool) (t : string) :
  all_chars p t = true -> Py.rstrip_by p t = "".
Proof.
  induction t as [|c t IH]; cbn [all_chars Py.rstrip_by]; [reflexivity|].
  intros H. apply andb_prop in H. destruct H as (Hc & Ht).
  now rewrite (IH Ht), Hc.
Qed.

Lemma rstrip_by_app_all (p : ascii -> bool) (a t : string) :
  all_chars p t = true -> Py.rstrip_by p (a ++ t) = Py.rstrip_by p a.
Proof.
  intros Ht. induction a as [|c a IH]; cbn [append Py.rstrip_by].
  - now apply rstrip_by_all.
  - now rewrite IH.
Qed.

Lemma rstrip_by_app_fixed (p : ascii -> bool) (a y : string) :
  y <> "" -> Py.rstrip_by p y = y -> Py.rstrip_by p (a ++ y) = a ++ y.
Proof.
  intros Hne Hy. induction a as [|c a IH]; cbn [append Py.rstrip_by]; [exact Hy|].
  rewrite IH. destruct (a ++ y) as [|d r] eqn:E; [|reflexivity].
  destruct a; cbn in E; [now subst y | discriminate].
Qed.

Lemma lstrip_by_idem (p : ascii -> bool) (s : string) :
  Py.lstrip_by p (Py.lstrip_by p s) = Py.lstrip_by p s.
Proof.
  induction s as [|c s IH]; [reflexivity|].
  rewrite (lstrip_by_cons p c s). destruct (p c) eqn:Hc; [exact IH|].
  now rewrite lstrip_by_cons, Hc.
Qed.

Lemma lstrip_by_app_fixed (p : ascii -> bool) (x t : string) :
  x <> "" -> Py.lstrip_by p x = x -> Py.lstrip_by p (x ++ t) = x ++ t.
Proof.
  intros Hne Hx. destruct x as [|c x]; [now destruct Hne|].
  pose proof (lstrip_by_head _ _ _ _ Hx) as Hc.
  cbn [append]. now rewrite lstrip_by_cons, Hc.
Qed.

Lemma strip_idem (s : string) : Py.strip (Py.strip s) = Py.strip s.
Proof.
  unfold Py.strip, Py.rstrip, Py.lstrip.
  rewrite (strip_sides_commute Py.is_space (Py.lstrip_by Py.is_space s)).
  now rewrite lstrip_by_idem, rstrip_by_idem.
Qed.

Lemma strip_fixed_rstrip (x : string) : Py.strip x = x -> Py.rstrip x = x.
Proof.
  intros H. rewrite <- H. unfold Py.strip, Py.rstrip. apply rstrip_by_idem.
Qed.

Lemma strip_fixed_lstrip (x : string) : Py.strip x = x -> Py.lstrip x = x.
Proof.
  intros H. rewrite <- H. unfold Py.strip, Py.rstrip, Py.lstrip.
  rewrite strip_sides_commute. now rewrite lstrip_by_idem.
Qed.

Lemma strip_line_feed (s : string) : Py.strip (s ++ Py.linesep) = Py.strip s.
Proof.
  unfold Py.strip, Py.rstrip, Py.lstrip.
  rewrite <- !strip_sides_commute. now rewrite rstrip_by_app_all.
Qed.

Lemma strip_after_line_feed (s : string) :
  Py.strip (Py.linesep ++ s) = Py.strip s.
Proof.
  unfold Py.strip, Py.rstrip, Py.lstrip, Py.linesep. cbn [append].
  now rewrite lstrip_by_cons.
Qed.

Lemma no_LF_occurs (a s : string) :
  occurs_in a s -> no_LF s = true -> no_LF a = true.
Proof.
  unfold no_LF. intros (p & q & ->). rewrite !all_chars_app.
  intros H. apply andb_prop in H. destruct H as (_ & H).
  apply andb_prop in H. tauto.
Qed.

Lemma lines_ok_in (l : list string) (x : string) :
  lines_ok l -> In x l ->
  exists body, no_LF body = true /\ (x = body ++ Py.linesep \/ x = body).
Proof.
  induction l as [|y l IH]; [intros _ []|].
  intros ((body & Hno & Hy) & Hl) [<- | Hin].
  - exists body. split; [exact Hno|]. destruct Hy as [-> | (-> & _)]; tauto.
  - now apply IH.
Qed.

Lemma stripped_lines_trim (text x : string) :
  In x (map Py.strip (Py.readlines text)) -> trim_line x.
Proof.
  intros Hx. apply in_map_iff in Hx. destruct Hx as (l & <- & Hl).
  split; [apply strip_idem|].
  destruct (lines_ok_in _ _ (readlines_ok text) Hl) as (body & Hno & [-> | ->]).
  - rewrite strip_line_feed. exact (no_LF_occurs _ _ (strip_occurs body) Hno).
  - exact (no_LF_occurs _ _ (strip_occurs body) Hno).
Qed.

(** ** Joined lines *)

Lemma join_snoc (sep x : string) (l : list string) :
  l <> [] -> Py.join sep (l ++ [x]) = Py.join sep l ++ sep ++ x.
Proof.
  induction l as [|a l IH]; [now intros []|]. intros _.
  destruct l as [|b l]; [reflexivity|].
  change (Py.join sep ((a :: b :: l) ++ [x]))
    with (a ++ sep ++ Py.join sep ((b :: l) ++ [x])).
  rewrite IH by discriminate.
  change (Py.join sep (a :: b :: l)) with (a ++ sep ++ Py.join sep (b :: l)).
  now rewrite !append_assoc.
Qed.

Lemma join_starts (sep : string) (l : list string) :
  hd "" l <> "" -> Py.join sep l <> "".
Proof.
  destruct l as [|a [|b l]]; cbn [hd Py.join]; try tauto.
  destruct a; [tauto | discriminate].
Qed.

Lemma rstrip_join (l : list string) :
  Forall trim_line l -> last l "" <> "" ->
  Py.rstrip (Py.join Py.linesep l) = Py.join Py.linesep l.
Proof.
  intros Hl Hlast. destruct (exists_last (l := l)) as (l0 & y & ->).
  { intros ->. now apply Hlast. }
  rewrite last_last in Hlast.
  apply Forall_app in Hl. destruct Hl as (_ & Hy).
  apply Forall_inv in Hy. destruct Hy as (Hy & _).
  apply strip_fixed_rstrip in Hy.
  destruct l0 as [|a l0]; [exact Hy|].
  rewrite join_snoc by discriminate. rewrite <- append_assoc.
  now apply rstrip_by_app_fixed.
Qed.

Lemma lstrip_join (l : list string) :
  Forall trim_line l -> hd "" l <> "" ->
  Py.lstrip (Py.join Py.linesep l) = Py.join Py.linesep l.
Proof.
  intros Hl Hhd. destruct l as [|x l]; [reflexivity|].
  apply Forall_inv in Hl. destruct Hl as (Hx & _).
  apply strip_fixed_lstrip in Hx. cbn [hd] in Hhd.
  destruct l as [|y l]; [exact Hx|].
  change (Py.join Py.linesep (x :: y :: l))
    with (x ++ Py.linesep ++ Py.join Py.linesep (y :: l)).
  now apply lstrip_by_app_fixed.
Qed.

(** The head of the page: stripping drops the blank lines before the first
    line that has a character. *)
Lemma strip_join_head (l : list string) :
  Forall trim_line l -> last l "" <> "" ->
  exists pre X,
    l = (pre ++ X)%list /\ X <> [] /\
    Py.strip (Py.join Py.linesep l) = Py.join Py.linesep X.
Proof.
  induction l as [|x l IH]; intros Hl Hlast; [now destruct Hlast|].
  destruct (string_dec x "") as [-> | Hx].
  - destruct l as [|y l]; [now destruct Hlast|].
    destruct IH as (pre & X & Heq & HX & Hs);
      [now apply Forall_inv_tail in Hl | exact Hlast |].
    exists ("" :: pre)%list, X. split; [cbn; now rewrite <- Heq|].
    split; [exact HX|].
    change (Py.join Py.linesep ("" :: y :: l))
      with (Py.linesep ++ Py.join Py.linesep (y :: l)).
    now rewrite strip_after_line_feed.
  - exists [], (x :: l). split; [reflexivity|]. split; [discriminate|].
    unfold Py.strip. rewrite lstrip_join by (cbn [hd]; assumption).
    now apply rstrip_join.
Qed.

(** The tail of the page: stripping drops the blank lines after the last
    line that has a character. *)
Lemma strip_join_tail (l : list string) :
  Forall trim_line l -> hd "" l <> "" ->
  exists Y post,
    l = (Y ++ post)%list /\ hd "" Y = hd "" l /\ last Y "" <> "" /\
    Py.strip (Py.join Py.linesep l) = Py.join Py.linesep Y.
Proof.
  induction l as [|x l IH] using rev_ind; intros Hl Hhd; [now destruct Hhd|].
  destruct (string_dec x "") as [-> | Hx].
  - destruct l as [|a l]; [now destruct Hhd|].
    apply Forall_app in Hl. destruct Hl as (Hl & _).
    cbn [hd app] in Hhd.
    destruct (IH Hl Hhd) as (Y & post & Heq & Hh & Hlast & Hs).
    exists Y, (post ++ [""])%list.
    split; [now rewrite app_assoc, <- Heq|].
    split; [exact Hh|]. split; [exact Hlast|].
    rewrite join_snoc by discriminate. rewrite append_nil_r.
    rewrite strip_line_feed. exact Hs.
  - exists (l ++ [x])%list, []. split; [now rewrite app_nil_r|].
    split; [reflexivity|]. split; [now rewrite last_last|].
    unfold Py.strip. rewrite lstrip_join by assumption.
    apply rstrip_join; [assumption | now rewrite last_last].
Qed.

(** ** Reading back what was joined *)

Lemma readlines_join (l : list string) (rest : string) :
  l <> [] -> Forall trim_line l ->
  Py.readlines (Py.join Py.linesep l ++ Py.linesep ++ rest) =
  (map (fun x => (x ++ Py.linesep)%string) l ++ Py.readlines rest)%list.
Proof.
  induction l as [|x l IH]; [now intros []|]. intros _ Hl.
  pose proof (Forall_inv Hl) as (_ & Hx). apply Forall_inv_tail in Hl.
  destruct l as [|y l].
  - cbn [Py.join map app]. now apply readlines_terminated.
  - change (Py.join Py.linesep (x :: y :: l))
      with (x ++ Py.linesep ++ Py.join Py.linesep (y :: l)).
    rewrite !append_assoc. rewrite (readlines_terminated _ _ Hx).
    rewrite IH by (discriminate || assumption). reflexivity.
Qed.

Lemma strip_terminated (l : list string) :
  Forall trim_line l -> map Py.strip (map (fun x => x ++ Py.linesep) l) = l.
Proof.
  induction 1 as [|x l (Hx & _) _ IH]; [reflexivity|].
  cbn [map]. now rewrite strip_line_feed, Hx, IH.
Qed.

Lemma stripped_lines_of_head (l : list string) :
  l <> [] -> Forall trim_line l ->
  map Py.strip (Py.readlines (Py.join Py.linesep l ++ Py.linesep)) = l.
Proof.
  intros Hne Hl.
  replace (Py.join Py.linesep l ++ Py.linesep)
    with (Py.join Py.linesep l ++ Py.linesep ++ "") by reflexivity.
  rewrite readlines_join by assumption.
  cbn [Py.readlines]. rewrite app_nil_r. now apply strip_terminated.
Qed.

Lemma stripped_lines_of_tail (l : list string) :
  Forall trim_line l -> last l "" <> "" ->
  map Py.strip (Py.readlines (Py.join Py.linesep l)) = l.
Proof.
  intros Hl Hlast. destruct (exists_last (l := l)) as (l0 & y & ->).
  { intros ->. now apply Hlast. }
  rewrite last_last in Hlast.
  apply Forall_app in Hl. destruct Hl as (Hl0 & Hy).
  apply Forall_inv in Hy. destruct Hy as (Hy & Hno).
  destruct l0 as [|a l0].
  - cbn [app Py.join]. rewrite readlines_unterminated by assumption.
    cbn [map]. now rewrite Hy.
  - rewrite join_snoc by discriminate.
    rewrite readlines_join by (discriminate || assumption).
    rewrite readlines_unterminated by assumption.
    rewrite map_app, strip_terminated by assumption.
    cbn [map]. now rewrite Hy.
Qed.

Lemma readlines_app_terminated (a rest : string) :
  Py.readlines (a ++ Py.linesep ++ rest) =
  (Py.readlines (a ++ Py.linesep) ++ Py.readlines rest)%list.
Proof.
  induction a as [|c a IH]; [reflexivity|].
  cbn [append Py.readlines]. rewrite IH.
  destruct (Ascii.eqb c Py.LF); [reflexivity|].
  destruct (Py.readlines (a ++ Py.linesep)) as [|l ls] eqn:E; [|reflexivity].
  exfalso. pose proof (concat_readlines (a ++ Py.linesep)) as H.
  rewrite E in H. destruct a; discriminate.
Qed.

(** ** Lines of a text that ends with a line feed *)

Lemma snoc_inj (a b : string) (c d : ascii) :
  a ++ String c "" = b ++ String d "" -> a = b.
Proof.
  revert b; induction a as [|x a IH]; intros [|y b] H; cbn in H.
  - reflexivity.
  - destruct b; discriminate.
  - destruct a; discriminate.
  - injection H as -> H. f_equal. now apply IH.
Qed.

Lemma occurs_in_snoc (x s : string) (c : ascii) :
  occurs_in x (s ++ String c "") ->
  occurs_in x s \/ exists x', x = x' ++ String c "".
Proof.
  intros (pre & post & H).
  destruct (string_dec post "") as [-> | Hpost].
  - rewrite append_nil_r in H.
    destruct (string_dec x "") as [-> | Hx].
    + left. exists "", s. reflexivity.
    + right. destruct (string_snoc x Hx) as (r & d & ->).
      exists r. rewrite <- append_assoc in H.
      assert (d = c) as ->; [|reflexivity].
      clear -H. revert H. generalize (pre ++ r). clear.
      intros t; revert s; induction t as [|y t IH]; intros [|z s] H; cbn in H.
      * now injection H.
      * destruct s; discriminate.
      * destruct t; discriminate.
      * injection H as _ H. now apply (IH s).
  - left. destruct (string_snoc post Hpost) as (r & d & ->).
    rewrite <- !append_assoc in H. apply snoc_inj in H.
    exists pre, r. now rewrite H, append_assoc.
Qed.

Lemma stripped_lines_absent_terminated (marker text : string) :
  ~ occurs_in marker text ->
  forall x, In x (map Py.strip (Py.readlines (text ++ Py.linesep))) ->
            Py.contains marker x = false.
Proof.
  intros Habs x Hx. apply in_map_iff in Hx. destruct Hx as (l & <- & Hl).
  destruct (Py.contains marker (Py.strip l)) eqn:E; [|reflexivity].
  exfalso. apply contains_occurs in E.
  assert (Hocc : occurs_in (Py.strip l) (text ++ Py.linesep)).
  { eapply occurs_in_trans; [apply strip_occurs | now apply readlines_occurs]. }
  destruct (occurs_in_snoc _ _ _ Hocc) as [Hin | (x' & Hx')].
  - apply Habs. eapply occurs_in_trans; eassumption.
  - apply rstrip_by_last in Hx'. discriminate.
Qed.

(** ** Indices *)

Lemma last_index_from_app (p : string -> bool) (l1 l2 : list string) :
  forall k acc,
    last_index_from p k (l1 ++ l2) acc =
    last_index_from p (k + length l1) l2 (last_index_from p k l1 acc).
Proof.
  induction l1 as [|x l1 IH]; intros k acc; cbn [app last_index_from length].
  - now rewrite Nat.add_0_r.
  - rewrite IH. f_equal. lia.
Qed.

Lemma firstn_length_app {A} (l1 l2 : list A) :
  firstn (length l1) (l1 ++ l2) = l1.
Proof. induction l1 as [|x l1 IH]; cbn; [now destruct l2 | now rewrite IH]. Qed.

Lemma skipn_length_app {A} (l1 l2 : list A) :
  skipn (length l1) (l1 ++ l2) = l2.
Proof. induction l1 as [|x l1 IH]; cbn; [reflexivity | exact IH]. Qed.

Lemma last_firstn {A} (d : A) (l : list A) :
  forall b, b < length l -> last (firstn (b + 1) l) d = nth b l d.
Proof.
  induction l as [|x l IH]; intros b Hb; [cbn in Hb; lia|].
  destruct b as [|b].
  - cbn. now destruct l.
  - cbn [Nat.add firstn nth]. cbn [length] in Hb.
    rewrite <- (IH b) by lia.
    destruct l as [|y l]; [cbn in Hb; lia|].
    replace (b + 1) with (S b) by lia. reflexivity.
Qed.

Lemma hd_skipn {A} (d : A) (l : list A) :
  forall e, hd d (skipn e l) = nth e l d.
Proof.
  induction l as [|x l IH]; intros [|e]; cbn; try reflexivity. apply IH.
Qed.

Lemma skipn_tail {A} (l : list A) :
  forall e y R, skipn e l = y :: R -> skipn (S e) l = R.
Proof.
  induction l as [|x l IH]; intros [|e] y R; cbn [skipn]; try discriminate.
  - now intros [= _ ->].
  - intros H. now apply IH in H.
Qed.

Lemma in_skipn_nth {A} (d : A) (l : list A) :
  forall e x, In x (skipn e l) ->
              exists j, e <= j /\ j < length l /\ nth j l d = x.
Proof.
  induction l as [|y l IH]; intros e x Hin.
  - destruct e; destruct Hin.
  - destruct e as [|e].
    + destruct (In_nth _ _ d Hin) as (j & Hj & Hx). exists j. repeat split; [lia | exact Hj | exact Hx].
    + cbn [skipn] in Hin. destruct (IH _ _ Hin) as (j & Hle & Hj & Hx).
      exists (S j). cbn. repeat split; [lia | lia | exact Hx].
Qed.

(** ** insert_api_docs, run on its own output *)

Lemma occurs_in_empty (a : string) : occurs_in a "" -> a = "".
Proof.
  intros (pre & post & H). destruct pre; [|discriminate].
  destruct a; [reflexivity | discriminate].
Qed.

Lemma marked_line_not_empty (marker x : string) :
  marker <> "" -> Py.contains marker x = true -> x <> "".
Proof.
  intros Hm Hc ->. apply contains_occurs, occurs_in_empty in Hc. contradiction.
Qed.

Lemma contains_empty (x : string) : Py.contains "" x = true.
Proof. apply contains_occurs. exists "", x. reflexivity. Qed.

Lemma target_content_stable (bm em docs : string) (T : list string) (b e : nat) :
  Forall trim_line T ->
  is_last (Py.contains bm) T b ->
  is_last (Py.contains em) T e ->
  b < e ->
  em <> "" ->
  ~ occurs_in bm docs ->
  ~ occurs_in em docs ->
  let content := target_content_of T docs b e in
  let T' := map Py.strip (Py.readlines content) in
  exists b' e',
    find_markers bm em T' = (Some b', Some e') /\ b' <> e' /\
    target_content_of T' docs b' e' = content.
Proof.
  intros HT (Hblt & Hbc & Hbafter) (Helt & Hec & Heafter) Hbe Hem Hdb Hde.
  assert (Hbm : bm <> "").
  { intros ->. pose proof (Hbafter e Hbe Helt) as H.
    rewrite contains_empty in H. discriminate. }
  pose proof (marked_line_not_empty _ _ Hbm Hbc) as Hxb.
  pose proof (marked_line_not_empty _ _ Hem Hec) as Hy0.
  pose proof HT as HT2.
  rewrite <- (firstn_skipn (b + 1) T) in HT.
  apply Forall_app in HT. destruct HT as (HL1 & _).
  rewrite <- (firstn_skipn e T) in HT2.
  apply Forall_app in HT2. destruct HT2 as (_ & HL2).
  destruct (strip_join_head (firstn (b + 1) T) HL1) as (pre & X & HeqX & HX & HsX).
  { now rewrite last_firstn. }
  destruct (strip_join_tail (skipn e T) HL2) as (Y & post & HeqY & HhY & HlY & HsY).
  { now rewrite hd_skipn. }
  rewrite hd_skipn in HhY.
  assert (HtX : Forall trim_line X).
  { rewrite HeqX in HL1. now apply Forall_app in HL1. }
  assert (HtY : Forall trim_line Y).
  { rewrite HeqY in HL2. now apply Forall_app in HL2. }
  destruct (exists_last HX) as (X0 & xb & ->).
  assert (Hxb' : xb = nth b T "").
  { rewrite <- (last_firstn "" T b Hblt), HeqX, app_assoc. now rewrite last_last. }
  destruct Y as [|y0 Y']; [now destruct HlY|].
  cbn [hd] in HhY. subst y0.
  set (D := map Py.strip (Py.readlines (docs ++ Py.linesep))).
  intros content T'.
  assert (HT' : T' = ((X0 ++ [xb]) ++ D ++ nth e T "" :: Y')%list).
  { unfold T', content, target_content_of. rewrite HsX, HsY.
    change (Py.join Py.linesep [?a; ?d; ?c])
      with (a ++ Py.linesep ++ d ++ Py.linesep ++ c).
    rewrite readlines_app_terminated, readlines_app_terminated.
    rewrite !map_app.
    rewrite stripped_lines_of_head by (assumption || now destruct X0).
    now rewrite stripped_lines_of_tail by assumption. }
  assert (HnoD_b : forall x, In x D -> Py.contains bm x = false)
    by now apply stripped_lines_absent_terminated.
  assert (HnoD_e : forall x, In x D -> Py.contains em x = false)
    by now apply stripped_lines_absent_terminated.
  assert (HnoY_b : forall x, In x (nth e T "" :: Y') -> Py.contains bm x = false).
  { intros x Hx. assert (Hin : In x (skipn e T)).
    { rewrite HeqY. apply in_or_app. now left. }
    destruct (in_skipn_nth "" _ _ _ Hin) as (j & Hle & Hj & <-).
    apply Hbafter; lia. }
  assert (HnoY_e : forall x, In x Y' -> Py.contains em x = false).
  { intros x Hx. cbn [app] in HeqY. apply skipn_tail in HeqY.
    assert (Hin : In x (skipn (S e) T)).
    { rewrite HeqY. apply in_or_app. now left. }
    destruct (in_skipn_nth "" _ _ _ Hin) as (j & Hle & Hj & <-).
    apply Heafter; lia. }
  exists (length X0), (length ((X0 ++ [xb]) ++ D)%list).
  split; [|split].
  - rewrite find_markers_last_index, HT'. f_equal.
    + rewrite last_index_from_app.
      rewrite last_index_from_none.
      2:{ intros x Hx. apply in_app_or in Hx. destruct Hx; auto. }
      rewrite last_index_from_app. cbn [last_index_from Nat.add].
      now rewrite Hxb', Hbc.
    + rewrite app_assoc, last_index_from_app. cbn [last_index_from Nat.add].
      rewrite Hec. now apply last_index_from_none.
  - rewrite !length_app. cbn [length]. lia.
  - rewrite HT'. unfold content, target_content_of.
    replace (length X0 + 1) with (length (X0 ++ [xb])%list)
      by (rewrite length_app; reflexivity).
    rewrite firstn_length_app.
    rewrite app_assoc, skipn_length_app.
    rewrite <- HsX, <- HsY. now rewrite !strip_idem.
Qed.

(** X21. [insert_api_docs] is idempotent on a page whose last begin marker
    comes before its last end marker: when the end marker is not empty and
    the rendered documentation holds neither marker, a second run on the
    page that the first run wrote returns as well and leaves every file as
    the first run left it. *)
Theorem insert_api_docs_is_idempotent :
  forall render modules into between w text b e,
    modules_truth modules = true ->
    node_at (fs w) into = Some (File text) ->
    is_last (Py.contains (fst between)) (map Py.strip (Py.readlines text)) b ->
    is_last (Py.contains (snd between)) (map Py.strip (Py.readlines text)) e ->
    b < e ->
    snd between <> "" ->
    ~ occurs_in (fst between)
        (Py.join Py.linesep (map render (modules_items modules))) ->
    ~ occurs_in (snd between)
        (Py.join Py.linesep (map render (modules_items modules))) ->
    exists w1 w2,
      insert_api_docs render modules into between w = (Ret tt, w1) /\
      insert_api_docs render modules into between w1 = (Ret tt, w2) /\
      forall q, node_at (fs w2) q = node_at (fs w1) q.
Proof.
  intros render modules into between w text b e Ht Hf Hb He Hbe Hem Hdb Hde.
  assert (Hne : b <> e) by lia.
  rewrite (insert_api_docs_writes render modules into between w text Ht Hf b e Hb He Hne).
  set (docs := Py.join Py.linesep (map render (modules_items modules))) in *.
  set (T := map Py.strip (Py.readlines text)) in *.
  set (content := target_content_of T docs b e).
  assert (HT : Forall trim_line T).
  { apply Forall_forall. intros x Hx. exact (stripped_lines_trim text x Hx). }
  destruct (target_content_stable _ _ docs T b e HT Hb He Hbe Hem Hdb Hde)
    as (b' & e' & Hfind & Hne' & Hsame).
  fold content in Hfind, Hsame.
  eexists _, _. split; [reflexivity|].
  rewrite (insert_api_docs_run render modules into between _ content Ht).
  2:{ cbn [fs node_at set_content]. now rewrite Path_eqb_refl. }
  rewrite Hfind. apply Nat.eqb_neq in Hne'. rewrite Hne'.
  fold docs. rewrite Hsame.
  split; [reflexivity|].
  intros q. cbn [fs node_at set_content].
  destruct (Path_eqb q into); reflexivity.
Qed.

Lemma insert_api_docs_is_idempotent_witness :
  exists w1 w2,
    insert_api_docs render_heading (ModList [sample_module]) api_md
      default_between (world_of [(api_md, sample_page)]) = (Ret tt, w1) /\
    insert_api_docs render_heading (ModList [sample_module]) api_md
      default_between w1 = (Ret tt, w2) /\
    forall q, node_at (fs w2) q = node_at (fs w1) q.
Proof.
  apply (insert_api_docs_is_idempotent
           render_heading (ModList [sample_module]) api_md default_between
           (world_of [(api_md, sample_page)]) sample_page 1 3).
  - reflexivity.
  - reflexivity.
  - apply is_last_of_last_index. reflexivity.
  - apply is_last_of_last_index. reflexivity.
  - lia.
  - discriminate.
  - intros H. apply contains_occurs in H. discriminate.
  - intros H. apply contains_occurs in H. discriminate.
Defined.

(** ** The module of a directory *)

Lemma stem_of_aggregator (dir : Path) : stem (child dir "mod.rs") = "mod".
Proof.
  unfold stem, path_name, child. cbn [parts]. rewrite last_last. reflexivity.
Qed.

Lemma parent_child (dir : Path) (name : string) : parent (child dir name) = dir.
Proof.
  destruct dir as [a ps]. unfold parent, child. cbn [anchored parts].
  now rewrite removelast_last.
Qed.

(** C7 (not met by the code). The name of the Module of an aggregator file
    is taken with [path.parent.stem], the name of the directory without its
    last suffix, beside a comment that gives the rule [foo.rs == foo/mod.rs].
    For the directory [api.v2] the Module of [api.v2/mod.rs] is named [api],
    which is not the name of the directory, while the file [api.v2.rs] yields
    a Module named [api.v2]; the submodules are those of the two siblings. *)
Theorem aggregator_name_drops_directory_suffix :
  (forall fuel dir w,
      match fst (analyze_rust_module fuel (child dir "mod.rs") w) with
      | Ret m => m_name m = stem dir
      | _ => True
      end) /\
  (exists m,
      fst (analyze_rust_module 2 api_v2_mod_rs (world_of api_v2_files)) = Ret m /\
      path_name (parent api_v2_mod_rs) = "api.v2" /\
      m_name m = "api" /\
      map m_name (m_submodules m) = ["strings"; "math"]) /\
  (exists m,
      fst (analyze_rust_module 1 api_v2_rs
             (world_of [(api_v2_rs, text_of ["//! Expression API."])])) = Ret m /\
      m_name m = "api.v2").
Proof.
  split; [|split].
  - intros fuel dir w.
    destruct (analyze_rust_module fuel (child dir "mod.rs") w) as [[m| |] w'] eqn:E;
      cbn [fst]; [|exact I ..].
    destruct (analyze_returns_parts _ _ _ _ _ E)
      as (fuel' & named & w1 & w2 & _ & Hres & _ & Hscan).
    destruct (scan_module_fields _ _ _ _ _ _ Hscan) as (_ & Hn & _).
    destruct (resolve_module_name _ _ _ _ _ Hres) as (Hname & _).
    rewrite stem_of_aggregator, parent_child in Hname. cbn in Hname. congruence.
  - eexists. split; [vm_compute; reflexivity|]. repeat split.
  - eexists. split; [vm_compute; reflexivity|]. reflexivity.
Qed.

(** X22. When the stem of the analysed file is [mod], the file can be read
    and no declaration line that the scanner turns into a Function lacks its
    brace, each sibling matching [*.rs] whose stem is not [mod] is found by
    the glob of its own path and its analysis returns, then the analysis
    returns a Module whose submodules are the Modules returned for those
    siblings, in listing order, each named after the stem of its file; so
    there are as many submodules as such siblings. *)
Theorem aggregator_submodules_are_the_siblings :
  forall fuel path w text subs,
    stem path = "mod" ->
    node_at (fs w) path = Some (File text) ->
    existsb (stuck (Py.readlines text)) (pub_fn_line_indices (Py.readlines text))
    = false ->
    Forall (fun p => glob (fs w) p = [p]) (submodule_paths (fs w) path) ->
    Forall2 (fun p sub => fst (analyze_rust_module fuel p w) = Ret sub)
            (submodule_paths (fs w) path) subs ->
    exists m w',
      analyze_rust_module (S fuel) path w = (Ret m, w') /\
      m_submodules m = subs /\
      map m_name subs = map stem (submodule_paths (fs w) path) /\
      length (m_submodules m) = length (submodule_paths (fs w) path).
Proof.
  intros fuel path w text subs Hmod Hfile Hopen Hglob Hsubs.
  set (w1 := mkWorld (fs w) (trace w ++ [Log INFO (Analyzing path)])%list).
  destruct (resolve_module_aggregator fuel path w subs Hmod Hglob Hsubs w1 eq_refl)
    as (w2 & Eresolve & Hw2).
  assert (Hfile2 : node_at (fs w2) path = Some (File text)) by (now rewrite Hw2).
  pose proof (scan_module_run fuel path (stem (parent path), subs) w2 text Hfile2)
    as Hrun.
  rewrite Hopen in Hrun.
  destruct (scan_module (S fuel) path (stem (parent path), subs) w2)
    as [r w3] eqn:Escan.
  cbn [fst] in Hrun. subst r.
  eexists _, w3. split; [|split; [|split]].
  - rewrite analyze_rust_module_parts. unfold bind at 1, logging, emit. fold w1.
    unfold bind at 1. rewrite Eresolve. exact Escan.
  - reflexivity.
  - apply (leaf_names fuel w); [apply submodule_paths_leaves | exact Hsubs].
  - cbn [m_submodules snd]. symmetry. eapply Forall2_length. exact Hsubs.
Qed.

Lemma aggregator_submodules_are_the_siblings_witness :
  submodule_paths (fs (world_of api_files)) api_mod_rs
  = [rel ["api"; "strings.rs"]; rel ["api"; "math.rs"]] /\
  exists m w',
    analyze_rust_module 2 api_mod_rs (world_of api_files) = (Ret m, w') /\
    m_submodules m = api_submodules /\
    map m_name api_submodules = ["strings"; "math"] /\
    length (m_submodules m) = 2.
Proof.
  split; [reflexivity|].
  apply (aggregator_submodules_are_the_siblings
           1 api_mod_rs (world_of api_files)
           (text_of ["//! Expression API."]) api_submodules).
  - reflexivity.
  - reflexivity.
  - reflexivity.
  - repeat constructor.
  - repeat constructor.
Defined.
